(** * RAG-QnA-App: the orchestration core of [main.py]

    A shallow embedding of the upload / ask pipeline of the service
    (text extraction, content hashing, sentence chunking, de-duplication
    against the vector store, retrieval and answer composition) together
    with the properties the specification states about it.

    Python values are modelled as follows:
    - [str] is a list of Unicode code points ([N]); [len] counts code
      points, as in Python 3;
    - [bytes] is a list of [Byte.byte];
    - [int] is [Z];
    - a raised exception is the [Raise] case of [result];
    - the process-wide services ([embedder], [qdrant], the chat endpoint)
      act on an explicit [World] threaded through the two request
      handlers; the libraries behind them are the fields of [Externals]. *)

From Stdlib Require Import Ascii String.
From Stdlib Require Import ZArith NArith List Bool Lia QArith.
From Stdlib Require Import Sorted Permutation.
From Stdlib Require Strings.Byte DecimalString.
Import ListNotations.

Set Implicit Arguments.

(* ================================================================== *)
(** * Python strings *)
(* ================================================================== *)

Module PyStr.

(** A character is a Unicode code point. *)
Definition char := N.
Definition str := list char.

(** Literals: the code points of an ASCII literal. *)
Definition py (s : string) : str :=
  List.map N_of_ascii (list_ascii_of_string s).

Definition DOT : char := 46%N.
Definition NEWLINE : char := 10%N.

(** [len(s)] *)
Definition len (s : str) : Z := Z.of_nat (List.length s).

(** [s == t] *)
Fixpoint str_eqb (s t : str) : bool :=
  match s, t with
  | [], [] => true
  | a :: s', b :: t' => N.eqb a b && str_eqb s' t'
  | _, _ => false
  end.

(** [bool(s)]: a string is truthy when it is not empty. *)
Definition truthy (s : str) : bool :=
  match s with [] => false | _ :: _ => true end.

(** [c.isspace()]: the code points Python 3 treats as whitespace. *)
Definition isspace (c : char) : bool :=
  ((9 <=? c) && (c <=? 13) || (28 <=? c) && (c <=? 32)
   || (c =? 133) || (c =? 160) || (c =? 5760)
   || (8192 <=? c) && (c <=? 8202)
   || (c =? 8232) || (c =? 8233) || (c =? 8239) || (c =? 8287)
   || (c =? 12288))%N.

(** [s.lstrip()], [s.rstrip()], [s.strip()] *)
Fixpoint lstrip (s : str) : str :=
  match s with
  | [] => []
  | c :: r => if isspace c then lstrip r else s
  end.

Definition rstrip (s : str) : str := rev (lstrip (rev s)).

Definition strip (s : str) : str := rstrip (lstrip s).

(** [s.split(sep)] for a one-character separator: never returns the
    empty list; [k] separators give [k+1] pieces. *)
Fixpoint split (s : str) (sep : char) : list str :=
  match s with
  | [] => [[]]
  | c :: r =>
      if N.eqb c sep then [] :: split r sep
      else match split r sep with
           | [] => [[c]]
           | piece :: rest => (c :: piece) :: rest
           end
  end.

(** [sep.join(parts)] *)
Fixpoint join (sep : str) (parts : list str) : str :=
  match parts with
  | [] => []
  | [p] => p
  | p :: rest => p ++ sep ++ join sep rest
  end.

(** [s.endswith(suffix)] *)
Fixpoint startswith (s prefix : str) {struct prefix} : bool :=
  match prefix, s with
  | [], _ => true
  | p :: prefix', c :: s' => N.eqb c p && startswith s' prefix'
  | _ :: _, [] => false
  end.

Definition endswith (s suffix : str) : bool :=
  startswith (rev s) (rev suffix).

(** [str(n)] / [f"{n}"] for an [int]. *)
Definition str_of_int (n : Z) : str :=
  py (DecimalString.NilZero.string_of_int (Z.to_int n)).

End PyStr.
Import PyStr.

(* ================================================================== *)
(** * The Chunker: [chunk_text] *)
(* ================================================================== *)

(** One iteration of the [for s in sentences] loop; the loop state is the
    pair [(chunks, current)]. *)
Definition chunk_step (max_len : Z) (st : list str * str) (s : str)
  : list str * str :=
  let (chunks, current) := st in
  if (len current + len s <? max_len)%Z
  then (chunks, current ++ s ++ [DOT])
  else (chunks ++ [strip current], s ++ [DOT]).

Definition chunk_loop (max_len : Z) (sentences : list str)
  (st : list str * str) : list str * str :=
  fold_left (chunk_step max_len) sentences st.

Definition chunk_text (text : str) (max_len : Z) : list str :=
  let sentences := split text DOT in
  let (chunks, current) := chunk_loop max_len sentences ([], []) in
  if truthy current then chunks ++ [strip current] else chunks.

(** The default of the [max_len] parameter. *)
Definition DEFAULT_MAX_LEN : Z := 1500.

(* ================================================================== *)
(** * UTF-8: [str.encode()] and [bytes.decode("utf-8")] *)
(* ================================================================== *)

Module Utf8.

Definition bytes := list Byte.byte.

(** The byte with value [n], for [n < 256]. *)
Definition byte_of (n : N) : Byte.byte :=
  match Byte.of_N n with Some x => x | None => Byte.x00 end.

(** [chr(c).encode()]: lone surrogates cannot be encoded. *)
Definition encode_char (c : char) : option bytes :=
  (if c <? 0x80 then Some [byte_of c]
   else if c <? 0x800 then
     Some [byte_of (0xC0 + c / 64); byte_of (0x80 + c mod 64)]
   else if c <? 0x10000 then
     if (0xD800 <=? c) && (c <=? 0xDFFF) then None
     else Some [byte_of (0xE0 + c / 4096);
                byte_of (0x80 + (c / 64) mod 64);
                byte_of (0x80 + c mod 64)]
   else if c <? 0x110000 then
     Some [byte_of (0xF0 + c / 262144);
           byte_of (0x80 + (c / 4096) mod 64);
           byte_of (0x80 + (c / 64) mod 64);
           byte_of (0x80 + c mod 64)]
   else None)%N.

Fixpoint encode (s : str) : option bytes :=
  match s with
  | [] => Some []
  | c :: r =>
      match encode_char c, encode r with
      | Some bs, Some rest => Some (bs ++ rest)
      | _, _ => None
      end
  end.

(** The payload of a continuation byte [10xxxxxx]. *)
Definition continuation (x : Byte.byte) : option N :=
  let n := Byte.to_N x in
  (if (0x80 <=? n) && (n <=? 0xBF) then Some (n - 0x80) else None)%N.

(** Strict decoding: truncated sequences, stray continuation bytes,
    overlong forms, surrogates and values above U+10FFFF are errors. *)
Fixpoint decode (l : bytes) : option str :=
  match l with
  | [] => Some []
  | b0 :: r =>
      let n0 := Byte.to_N b0 in
      (if n0 <? 0x80 then option_map (cons n0) (decode r)
       else if n0 <? 0xC2 then None
       else if n0 <? 0xE0 then
         match r with
         | b1 :: r1 =>
             match continuation b1 with
             | Some c1 =>
                 option_map (cons ((n0 - 0xC0) * 64 + c1)) (decode r1)
             | None => None
             end
         | _ => None
         end
       else if n0 <? 0xF0 then
         match r with
         | b1 :: b2 :: r2 =>
             match continuation b1, continuation b2 with
             | Some c1, Some c2 =>
                 let c := (n0 - 0xE0) * 4096 + c1 * 64 + c2 in
                 if (c <? 0x800) || ((0xD800 <=? c) && (c <=? 0xDFFF))
                 then None
                 else option_map (cons c) (decode r2)
             | _, _ => None
             end
         | _ => None
         end
       else if n0 <? 0xF5 then
         match r with
         | b1 :: b2 :: b3 :: r3 =>
             match continuation b1, continuation b2, continuation b3 with
             | Some c1, Some c2, Some c3 =>
                 let c := (n0 - 0xF0) * 262144 + c1 * 4096 + c2 * 64 + c3 in
                 if (c <? 0x10000) || (0x10FFFF <? c) then None
                 else option_map (cons c) (decode r3)
             | _, _, _ => None
             end
         | _ => None
         end
       else None)%N
  end.

End Utf8.

(* ================================================================== *)
(** * MD5: [hashlib.md5(data).hexdigest()] (RFC 1321) *)
(* ================================================================== *)

Module MD5.

Local Open Scope Z_scope.

Definition K : list Z :=
  [0xd76aa478; 0xe8c7b756; 0x242070db; 0xc1bdceee;
   0xf57c0faf; 0x4787c62a; 0xa8304613; 0xfd469501;
   0x698098d8; 0x8b44f7af; 0xffff5bb1; 0x895cd7be;
   0x6b901122; 0xfd987193; 0xa679438e; 0x49b40821;
   0xf61e2562; 0xc040b340; 0x265e5a51; 0xe9b6c7aa;
   0xd62f105d; 0x02441453; 0xd8a1e681; 0xe7d3fbc8;
   0x21e1cde6; 0xc33707d6; 0xf4d50d87; 0x455a14ed;
   0xa9e3e905; 0xfcefa3f8; 0x676f02d9; 0x8d2a4c8a;
   0xfffa3942; 0x8771f681; 0x6d9d6122; 0xfde5380c;
   0xa4beea44; 0x4bdecfa9; 0xf6bb4b60; 0xbebfbc70;
   0x289b7ec6; 0xeaa127fa; 0xd4ef3085; 0x04881d05;
   0xd9d4d039; 0xe6db99e5; 0x1fa27cf8; 0xc4ac5665;
   0xf4292244; 0x432aff97; 0xab9423a7; 0xfc93a039;
   0x655b59c3; 0x8f0ccc92; 0xffeff47d; 0x85845dd1;
   0x6fa87e4f; 0xfe2ce6e0; 0xa3014314; 0x4e0811a1;
   0xf7537e82; 0xbd3af235; 0x2ad7d2bb; 0xeb86d391].

(** Per-round left-rotation amounts. *)
Definition R : list Z :=
  [7; 12; 17; 22; 7; 12; 17; 22; 7; 12; 17; 22; 7; 12; 17; 22;
   5; 9; 14; 20; 5; 9; 14; 20; 5; 9; 14; 20; 5; 9; 14; 20;
   4; 11; 16; 23; 4; 11; 16; 23; 4; 11; 16; 23; 4; 11; 16; 23;
   6; 10; 15; 21; 6; 10; 15; 21; 6; 10; 15; 21; 6; 10; 15; 21].

Definition mask32 : Z := 0xFFFFFFFF.
Definition add32 (a b : Z) : Z := Z.land (a + b) mask32.
Definition not32 (a : Z) : Z := Z.lxor a mask32.
Definition rotl32 (x c : Z) : Z :=
  Z.lor (Z.land (Z.shiftl x c) mask32) (Z.shiftr x (32 - c)).

Definition state : Type := Z * Z * Z * Z.

Definition init : state := (0x67452301, 0xefcdab89, 0x98badcfe, 0x10325476).

(** Operation [i] (0..63) on the sixteen words [M] of a block. *)
Definition round (M : list Z) (st : state) (i : nat) : state :=
  let '(A, B, C, D) := st in
  let '(F, g) :=
    if (i <? 16)%nat then
      (Z.lor (Z.land B C) (Z.land (not32 B) D), i)
    else if (i <? 32)%nat then
      (Z.lor (Z.land D B) (Z.land (not32 D) C), ((5 * i + 1) mod 16)%nat)
    else if (i <? 48)%nat then
      (Z.lxor B (Z.lxor C D), ((3 * i + 5) mod 16)%nat)
    else
      (Z.lxor C (Z.lor B (not32 D)), ((7 * i) mod 16)%nat) in
  let F' := add32 (add32 (add32 F A) (nth i K 0)) (nth g M 0) in
  (D, add32 B (rotl32 F' (nth i R 0)), B, C).

(** Little-endian 32-bit words of a byte sequence (length a multiple of 4). *)
Fixpoint words (bs : list Z) : list Z :=
  match bs with
  | b0 :: b1 :: b2 :: b3 :: r =>
      (b0 + 256 * b1 + 65536 * b2 + 16777216 * b3) :: words r
  | _ => []
  end.

Definition block (st : state) (M : list Z) : state :=
  let '(A0, B0, C0, D0) := st in
  let '(A, B, C, D) := fold_left (round M) (seq 0 64) st in
  (add32 A0 A, add32 B0 B, add32 C0 C, add32 D0 D).

Fixpoint blocks (fuel : nat) (ws : list Z) (st : state) : state :=
  match fuel with
  | O => st
  | S fuel' =>
      match ws with
      | [] => st
      | _ => blocks fuel' (skipn 16 ws) (block st (firstn 16 ws))
      end
  end.

(** [n] as [k] little-endian bytes. *)
Fixpoint le_bytes (k : nat) (n : Z) : list Z :=
  match k with
  | O => []
  | S k' => (n mod 256) :: le_bytes k' (n / 256)
  end.

(** Padding: a [1] bit, zeros up to 56 mod 64, the bit length on 64 bits. *)
Definition pad (msg : list Z) : list Z :=
  let n := Z.of_nat (length msg) in
  let zeros := Z.to_nat ((55 - n) mod 64) in
  msg ++ [0x80] ++ repeat 0 zeros ++ le_bytes 8 ((8 * n) mod 2 ^ 64).

Definition digest (data : Utf8.bytes) : list Z :=
  let msg := map (fun b => Z.of_N (Byte.to_N b)) data in
  let ws := words (pad msg) in
  let '(A, B, C, D) := blocks (length ws) ws init in
  le_bytes 4 A ++ le_bytes 4 B ++ le_bytes 4 C ++ le_bytes 4 D.

Definition hex_digit (d : Z) : char :=
  Z.to_N (if d <? 10 then 48 + d else 87 + d).

Definition hexdigest (data : Utf8.bytes) : str :=
  flat_map (fun b => [hex_digit (b / 16); hex_digit (b mod 16)]) (digest data).

End MD5.

(* ================================================================== *)
(** * Exceptions, dictionaries and JSON values *)
(* ================================================================== *)

(** The exceptions that can leave the functions of [main.py]. *)
Inductive exn : Type :=
| HTTPException (status_code : Z) (detail : str)
| UnicodeDecodeError
| UnicodeEncodeError
| TypeError
| PDFSyntaxError
| RequestException.

Inductive result (A : Type) : Type :=
| Ok (a : A)
| Raise (e : exn).
Arguments Ok {A} a.
Arguments Raise {A} e.

(** A [dict] with string keys and string values, in insertion order. *)
Definition dict := list (str * str).

(** [d.get(k)] *)
Fixpoint dict_get (d : dict) (k : str) : option str :=
  match d with
  | [] => None
  | (k', v) :: r => if str_eqb k' k then Some v else dict_get r k
  end.

(** [d.get(k, default)] *)
Definition dict_get_default (d : dict) (k default : str) : str :=
  match dict_get d k with Some v => v | None => default end.

Module Json.

(** What [resp.json()] can return. *)
#[local] Unset Elimination Schemes.
Inductive value : Type :=
| JNull
| JBool (b : bool)
| JNumber (q : Q)
| JString (s : str)
| JArray (items : list value)
| JObject (members : list (str * value)).
#[local] Set Elimination Schemes.

Fixpoint member (members : list (str * value)) (k : str) : option value :=
  match members with
  | [] => None
  | (k', v) :: r => if str_eqb k' k then Some v else member r k
  end.

(** [v[k]] for a string key: defined on objects that have the key; every
    other case raises ([KeyError], [TypeError]), modelled as [None]. *)
Definition getitem (v : value) (k : str) : option value :=
  match v with
  | JObject members => member members k
  | _ => None
  end.

(** [v[0]]: the first element of a non-empty list, the first character of
    a non-empty string; every other case raises. *)
Definition getitem0 (v : value) : option value :=
  match v with
  | JArray (x :: _) => Some x
  | JString (c :: _) => Some (JString [c])
  | _ => None
  end.

(** [v.strip()]: only strings have the method. *)
Definition strip_method (v : value) : option str :=
  match v with
  | JString s => Some (strip s)
  | _ => None
  end.

End Json.

(** [a >>= f] on [option], for chains of subscripts that may raise. *)
Definition and_then {A B : Type} (a : option A) (f : A -> option B)
  : option B :=
  match a with Some x => f x | None => None end.

(* ================================================================== *)
(** * The external collaborators *)
(* ================================================================== *)

(** The request [query_huggingface_chat] posts. *)
Record ChatRequest : Type := {
  api_url : str;
  authorization : str;
  model : str;
  system_content : str;
  user_content : str;
  temperature : Q;
  max_tokens : Z
}.

(** What the handler reads of a [requests.Response]. *)
Record Response : Type := {
  status_code : Z;
  text : str
}.

(** An uploaded file as [extract_text] sees it. *)
Record UploadFile : Type := {
  filename : str;
  content_type : str;
  file : Utf8.bytes
}.

(** The libraries and services the module calls but does not define:
    - [embedder_encode]: [SentenceTransformer.encode] on one text;
    - [cosine]: the similarity score of the [COSINE] collection;
    - [pdfplumber_pages]: [page.extract_text()] of every page of the PDF
      in order ([None] for a page without text), or the exception raised
      on opening;
    - [requests_post]: the chat-completion endpoint: a response, or the
      exception of a failed transport;
    - [json_loads]: the JSON parser behind [resp.json()], [None] when the
      body is not JSON;
    - [HF_API_KEY]: the environment variable. *)
Class Externals : Type := {
  vector : Type;
  embedder_encode : str -> vector;
  cosine : vector -> vector -> Q;
  pdfplumber_pages : Utf8.bytes -> result (list (option str));
  requests_post : ChatRequest -> result Response;
  json_loads : str -> option Json.value;
  HF_API_KEY : option str
}.

(* ================================================================== *)
(** * Pure utilities of [main.py] *)
(* ================================================================== *)

(** [compute_hash]: MD5 hex digest of the UTF-8 encoding. *)
Definition compute_hash (content : str) : result str :=
  match Utf8.encode content with
  | Some data => Ok (MD5.hexdigest data)
  | None => Raise UnicodeEncodeError
  end.

(** The PDF branch: [text += page.extract_text() + "\n"] per page. *)
Fixpoint concat_pages (text : str) (pages : list (option str))
  : result str :=
  match pages with
  | [] => Ok text
  | Some page_text :: rest =>
      concat_pages (text ++ page_text ++ [NEWLINE]) rest
  | None :: _ => Raise TypeError
  end.

Definition UNSUPPORTED : exn :=
  HTTPException 400 (py "Only PDF or TXT supported").

Definition extract_text `{Externals} (f : UploadFile) : result str :=
  if endswith (filename f) (py ".txt") then
    match Utf8.decode (file f) with
    | Some s => Ok s
    | None => Raise UnicodeDecodeError
    end
  else if endswith (filename f) (py ".pdf") then
    match pdfplumber_pages (file f) with
    | Ok pages => concat_pages [] pages
    | Raise e => Raise e
    end
  else Raise UNSUPPORTED.

(* ================================================================== *)
(** * The vector store and the process state *)
(* ================================================================== *)

Section Service.

Context {E : Externals}.

(** [rest.PointStruct]: ids are UUIDs, read as 128-bit numbers. *)
Record PointStruct : Type := {
  id : N;
  point_vector : vector;
  payload : dict
}.

(** A search hit: [ScoredPoint]. *)
Record ScoredPoint : Type := {
  hit_id : N;
  score : Q;
  hit_payload : dict
}.

(** Calls made to the external services, in the order they happen. *)
Inductive Call : Type :=
| CallEncode (texts : list str)
| CallScroll
| CallUpsert (ids : list N)
| CallSearch (limit : nat)
| CallChat (req : ChatRequest).

(** The state around a request: the collection [rag_documents] (kept
    in id order, the order in which Qdrant scrolls), the values
    [uuid.uuid4()] will return, and the log of external calls. *)
Record World : Type := {
  points : list PointStruct;
  uuid_src : nat -> N;
  uuid_drawn : nat;
  calls : list Call
}.

Definition log (c : Call) (w : World) : World :=
  {| points := points w; uuid_src := uuid_src w;
     uuid_drawn := uuid_drawn w; calls := calls w ++ [c] |}.

Definition set_points (ps : list PointStruct) (w : World) : World :=
  {| points := ps; uuid_src := uuid_src w;
     uuid_drawn := uuid_drawn w; calls := calls w |}.

(** ** The request monad: state and exceptions *)

Definition M (A : Type) : Type := World -> result A * World.

Definition ret {A : Type} (a : A) : M A := fun w => (Ok a, w).

Definition raise {A : Type} (e : exn) : M A := fun w => (Raise e, w).

Definition bind {A B : Type} (m : M A) (k : A -> M B) : M B :=
  fun w =>
    match m w with
    | (Ok a, w') => k a w'
    | (Raise e, w') => (Raise e, w')
    end.

Definition lift {A : Type} (r : result A) : M A :=
  match r with Ok a => ret a | Raise e => raise e end.

Notation "x <- m ;; k" := (bind m (fun x => k))
  (at level 61, m at next level, right associativity).
Notation "m ;;; k" := (bind m (fun _ => k))
  (at level 61, right associativity).

(** ** Qdrant client

    The client calls are taken to succeed. The collection is read in id
    order: [scroll] returns one page of at most [limit] points together
    with the offset of the next page, [search] the [limit] best-scoring
    points, best first. *)

(** The page size [scroll] uses when the caller passes no [limit]
    (qdrant-client declares [limit: int = 10]); [upload_file] passes
    none and drops the next-page offset. *)
Definition SCROLL_DEFAULT_LIMIT : nat := 10.

(** Upsert by id: a point replaces the point with the same id. *)
Fixpoint upsert_point (p : PointStruct) (coll : list PointStruct)
  : list PointStruct :=
  match coll with
  | [] => [p]
  | q :: r =>
      if (id p <? id q)%N then p :: coll
      else if (id p =? id q)%N then p :: r
      else q :: upsert_point p r
  end.

Definition qdrant_upsert (ps : list PointStruct) : M unit :=
  fun w =>
    (Ok tt,
     log (CallUpsert (map id ps))
         (set_points (fold_left (fun c p => upsert_point p c) ps (points w))
                     w)).

(** [scroll(limit=...)]: one page of points in id order and the offset
    of the next page, if any. *)
Definition qdrant_scroll (limit : nat)
  : M (list PointStruct * option N) :=
  fun w =>
    (Ok (firstn limit (points w),
         option_map id (nth_error (points w) limit)),
     log CallScroll w).

Definition score_point (q : vector) (p : PointStruct) : ScoredPoint :=
  {| hit_id := id p; score := cosine q (point_vector p);
     hit_payload := payload p |}.

(** Modelled from the spec: the search of the vector database, which
    is not part of this repository. Section 4.5 gives its contract:
    [search(query_vector, k)] returns the [k] stored records nearest to
    the query vector by cosine similarity, most similar first, fewer
    when the collection holds fewer, none when it is empty. [rank]
    orders the scored points by decreasing score. *)
Fixpoint insert_desc (h : ScoredPoint) (l : list ScoredPoint)
  : list ScoredPoint :=
  match l with
  | [] => [h]
  | x :: r =>
      if Qle_bool (score x) (score h) then h :: l
      else x :: insert_desc h r
  end.

Definition rank (hits : list ScoredPoint) : list ScoredPoint :=
  fold_right insert_desc [] hits.

(** Descending score order on hits. *)
Definition by_score_desc (a b : ScoredPoint) : Prop :=
  (score b <= score a)%Q.

(** Modelled from the spec: [search(query_vector, limit)] of the vector
    database (see [rank]): every stored point scored by its cosine
    similarity to the query, the [limit] best ones kept, best first,
    with their payloads. *)
Definition qdrant_search (query_vector : vector) (limit : nat)
  : M (list ScoredPoint) :=
  fun w =>
    (Ok (firstn limit (rank (map (score_point query_vector) (points w)))),
     log (CallSearch limit) w).

(** ** Embedder and UUIDs

    The embedding model is a function of the text; every call is
    logged. [uuid4] draws the next value of [uuid_src]. *)

Definition embedder_encode_list (texts : list str) : M (list vector) :=
  fun w => (Ok (map embedder_encode texts), log (CallEncode texts) w).

Definition embedder_encode_one (t : str) : M vector :=
  fun w => (Ok (embedder_encode t), log (CallEncode [t]) w).

Definition uuid4 : M N :=
  fun w =>
    (Ok (uuid_src w (uuid_drawn w)),
     {| points := points w; uuid_src := uuid_src w;
        uuid_drawn := S (uuid_drawn w); calls := calls w |}).

(* ================================================================== *)
(** * [query_huggingface_chat] *)
(* ================================================================== *)

Definition SYSTEM_PROMPT : str :=
  py "You are a helpful assistant answering questions using the provided context."
  ++ [NEWLINE]
  ++ py "If the answer is not contained in the context, say: 'I don't know.'"
  ++ [NEWLINE]
  ++ py "Do not make up information. Be concise and clear.".

Definition chat_request (question context : str) : ChatRequest :=
  {| api_url := py "https://router.huggingface.co/v1/chat/completions";
     authorization :=
       py "Bearer " ++
       match HF_API_KEY with Some k => k | None => py "None" end;
     model := py "mistralai/Mistral-7B-Instruct-v0.2:featherless-ai";
     system_content := SYSTEM_PROMPT;
     user_content :=
       py "Context:" ++ [NEWLINE] ++ context ++ [NEWLINE; NEWLINE]
       ++ py "Question: " ++ question;
     temperature := 7 # 10;
     max_tokens := 512 |}.

(** [resp.json()["choices"][0]["message"]["content"].strip()]; [None]
    when any step raises. *)
Definition reply_content (resp : Response) : option str :=
  and_then (json_loads (text resp)) (fun body =>
  and_then (Json.getitem body (py "choices")) (fun choices =>
  and_then (Json.getitem0 choices) (fun choice =>
  and_then (Json.getitem choice (py "message")) (fun message =>
  and_then (Json.getitem message (py "content")) Json.strip_method)))).

(** The [except] branch: [f"Error: {resp.status_code} - {resp.text}"]. *)
Definition error_text (resp : Response) : str :=
  py "Error: " ++ str_of_int (status_code resp) ++ py " - " ++ text resp.

Definition post (req : ChatRequest) : M Response :=
  fun w => (requests_post req, log (CallChat req) w).

Definition query_huggingface_chat (question context : str) : M str :=
  resp <- post (chat_request question context) ;;
  match reply_content resp with
  | Some content => ret content
  | None => ret (error_text resp)
  end.

(* ================================================================== *)
(** * The endpoints *)
(* ================================================================== *)

(** [any(pt.payload.get("file_hash") == file_hash for pt in points)] *)
Definition has_hash (file_hash : str) (pts : list PointStruct) : bool :=
  existsb (fun pt =>
             match dict_get (payload pt) (py "file_hash") with
             | Some h => str_eqb h file_hash
             | None => false
             end) pts.

(** The list comprehension that builds the points: one fresh id each. *)
Fixpoint build_points (file_hash : str) (items : list (str * vector))
  : M (list PointStruct) :=
  match items with
  | [] => ret []
  | (chunk, embedding) :: rest =>
      i <- uuid4 ;;
      ps <- build_points file_hash rest ;;
      ret ({| id := i; point_vector := embedding;
              payload := [(py "text", chunk);
                          (py "file_hash", file_hash)] |} :: ps)
  end.

Definition upload_file (f : UploadFile) : M dict :=
  txt <- lift (extract_text f) ;;
  file_hash <- lift (compute_hash txt) ;;
  page <- qdrant_scroll SCROLL_DEFAULT_LIMIT ;;
  if has_hash file_hash (fst page) then
    ret [(py "message", py "File already processed")]
  else
    let chunks := chunk_text txt DEFAULT_MAX_LEN in
    embeddings <- embedder_encode_list chunks ;;
    ps <- build_points file_hash (combine chunks embeddings) ;;
    qdrant_upsert ps ;;;
    ret [(py "message",
          py "File processed and " ++ str_of_int (Z.of_nat (length chunks))
          ++ py " chunks stored.")].

Definition NO_CONTEXT : dict :=
  [(py "answer", py "No relevant context found."); (py "context", [])].

Definition ask (question : str) : M dict :=
  q_emb <- embedder_encode_one question ;;
  hits <- qdrant_search q_emb 3 ;;
  match hits with
  | [] => ret NO_CONTEXT
  | _ :: _ =>
      let context :=
        join [NEWLINE]
             (map (fun hit => dict_get_default (hit_payload hit)
                                               (py "text") [])
                  hits) in
      answer <- query_huggingface_chat question context ;;
      ret [(py "answer", answer); (py "context", context)]
  end.

End Service.

(* ================================================================== *)
(** * Statements and test fixtures used by the properties below *)
(* ================================================================== *)

(** Each fragment followed by the terminator that the loop puts back. *)
Definition dotted (frags : list str) : str :=
  concat (map (fun s => s ++ [DOT]) frags).

(** Undo the terminator insertions: cut at every terminator and drop the
    empty piece left after the last one. *)
Definition undotted (s : str) : list str := removelast (split s DOT).

(** A fragment read back from a chunk is the original fragment, possibly
    without its leading whitespace (the trim at the head of a chunk). *)
Definition trimmed_of (g f : str) : Prop := g = f \/ g = lstrip f.

(** The loop state [(chunks, current)] accounts for the fragments [F]
    read so far: the flushed chunks spell the trimmed fragments [pre],
    the buffer spells the remaining ones untrimmed. *)
Definition accounts (st : list str * str) (F : list str) : Prop :=
  exists gs pre fcur,
    concat (fst st) = dotted gs /\ snd st = dotted fcur /\
    Forall2 trimmed_of gs pre /\ F = pre ++ fcur.

(** The chunk made of the single fragment [s]. *)
Definition lone_fragment_chunk (s : str) : str := strip (s ++ [DOT]).

(** The length bound the loop maintains: a chunk is at most [max_len]
    long, unless it is a single fragment that is itself at least
    [max_len] long. *)
Definition within_bound (frags : list str) (max_len : Z) (c : str) : Prop :=
  (len c <= max_len)%Z \/
  exists s, In s frags /\ (max_len <= len s)%Z /\ c = lone_fragment_chunk s.

(** The same bound for the running buffer, which is not trimmed yet. *)
Definition buffer_within_bound (frags : list str) (max_len : Z) (cur : str)
  : Prop :=
  (len cur <= max_len)%Z \/
  exists s, In s frags /\ (max_len <= len s)%Z /\ cur = s ++ [DOT].

(** The bound with strict inequalities: every chunk shorter than
    [max_len] unless some fragment is longer than [max_len]. *)
Definition strictly_within_bound (frags : list str) (max_len : Z) (c : str)
  : Prop :=
  (len c < max_len)%Z \/ exists s, In s frags /\ (max_len < len s)%Z.

(** A test double for the external collaborators: two-dimensional
    embeddings, a dot product as score, a chat endpoint that is down. *)
Definition stub : Externals := {|
  vector := list Q;
  embedder_encode := fun s => [inject_Z (len s); 1%Q];
  cosine := fun a b =>
    fold_left Qplus (map (fun ab => fst ab * snd ab)%Q (combine a b)) 0%Q;
  pdfplumber_pages := fun _ => Raise PDFSyntaxError;
  requests_post := fun _ =>
    Ok {| status_code := 503; text := py "Service Unavailable" |};
  json_loads := fun _ => None;
  HF_API_KEY := None
|}.

(** The same, with the chat endpoint unreachable. *)
Definition stub_offline : Externals := {|
  vector := @vector stub;
  embedder_encode := @embedder_encode stub;
  cosine := @cosine stub;
  pdfplumber_pages := @pdfplumber_pages stub;
  requests_post := fun _ => Raise RequestException;
  json_loads := @json_loads stub;
  HF_API_KEY := None
|}.

(** A text file holding the ASCII text [s]. *)
Definition text_file (name : str) (s : string) : UploadFile :=
  {| filename := name; content_type := py "text/plain";
     file := list_byte_of_string s |}.

Section Fixtures.

Context {E : Externals}.

(** An empty collection; [uuid4] returns increasing version-4 UUIDs. *)
Definition empty_world : World :=
  {| points := [];
     uuid_src := fun n =>
       (0x10000000000040008000000000000000 + N.of_nat n)%N;
     uuid_drawn := 0;
     calls := [] |}.

(** Uploads in sequence, results dropped. *)
Fixpoint upload_all (fs : list UploadFile) (w : World) : World :=
  match fs with
  | [] => w
  | f :: rest => upload_all rest (snd (upload_file f w))
  end.

(** Ten different one-sentence documents. *)
Definition ten_documents : list UploadFile :=
  [text_file (py "doc0.txt") "Document zero";
   text_file (py "doc1.txt") "Document one";
   text_file (py "doc2.txt") "Document two";
   text_file (py "doc3.txt") "Document three";
   text_file (py "doc4.txt") "Document four";
   text_file (py "doc5.txt") "Document five";
   text_file (py "doc6.txt") "Document six";
   text_file (py "doc7.txt") "Document seven";
   text_file (py "doc8.txt") "Document eight";
   text_file (py "doc9.txt") "Document nine"].

(** The same content under two names. *)
Definition report : UploadFile := text_file (py "report.txt") "Hello world.".
Definition report_copy : UploadFile := text_file (py "copy.txt") "Hello world.".

(** A collection holding one stored chunk. *)
Definition one_document_world : World :=
  upload_all [report] empty_world.

(** A collection of four one-chunk documents of different lengths,
    stored in an order that is not the order of their lengths. *)
Definition four_document_world : World :=
  upload_all [text_file (py "note.txt") "Hi";
              text_file (py "long.txt") "A much longer document";
              report;
              text_file (py "mid.txt") "Medium text"]
             empty_world.

End Fixtures.

(* ================================================================== *)
(** * Further statements about the Chunker and the hash *)
(* ================================================================== *)

(** The characters of a string that are not whitespace, in order. *)
Definition nonspace (s : str) : str :=
  filter (fun c => negb (isspace c)) s.

(** A string that neither starts nor ends with whitespace. *)
Definition trimmed (c : str) : Prop :=
  (forall a, hd_error c = Some a -> isspace a = false) /\
  (forall z, hd_error (rev c) = Some z -> isspace z = false).

(** A chunk that ends with the terminator. *)
Definition terminated (c : str) : Prop := exists x, c = x ++ [DOT].

(** A lower-case hexadecimal digit. *)
Definition is_hex_digit (c : char) : Prop :=
  (48 <= c <= 57)%N \/ (97 <= c <= 102)%N.

(* ================================================================== *)
(** * Further fixtures for the endpoints *)
(* ================================================================== *)

(** [s] between double quotes. *)
Definition quoted (s : str) : str := [34%N] ++ s ++ [34%N].

(** A well-formed chat-completion body and the value it parses to. *)
Definition REPLY_BODY : str :=
  py "{" ++ quoted (py "choices") ++ py ":[{" ++ quoted (py "message")
  ++ py ":{" ++ quoted (py "content") ++ py ":" ++ quoted (py " Paris. ")
  ++ py "}}]}".

Definition REPLY_JSON : Json.value :=
  Json.JObject
    [(py "choices",
      Json.JArray
        [Json.JObject
           [(py "message",
             Json.JObject [(py "content", Json.JString (py " Paris. "))])]])].

(** A test double whose chat endpoint answers, and whose PDF reader
    finds two pages of text. *)
Definition stub_online : Externals := {|
  vector := @vector stub;
  embedder_encode := @embedder_encode stub;
  cosine := @cosine stub;
  pdfplumber_pages := fun _ => Ok [Some (py "Page one"); Some (py "Page two")];
  requests_post := fun _ => Ok {| status_code := 200; text := REPLY_BODY |};
  json_loads := fun t => if str_eqb t REPLY_BODY then Some REPLY_JSON else None;
  HF_API_KEY := Some (py "hf_test")
|}.

Section UploadStatements.

Context {E : Externals}.

(** The points an upload builds from its chunks and their embeddings:
    the [k]-th one gets the [k]-th UUID drawn, the chunk as text and the
    hash of the whole document. *)
Fixpoint new_points (file_hash : str) (src : nat -> N) (k : nat)
  (items : list (str * vector)) : list PointStruct :=
  match items with
  | [] => []
  | (chunk, embedding) :: rest =>
      {| id := src k; point_vector := embedding;
         payload := [(py "text", chunk); (py "file_hash", file_hash)] |}
      :: new_points file_hash src (S k) rest
  end.

(** The state after [n] UUIDs have been drawn. *)
Definition after_draws (n : nat) (w : World) : World :=
  {| points := points w; uuid_src := uuid_src w;
     uuid_drawn := uuid_drawn w + n; calls := calls w |}.

(** The context [ask] builds from the hits of a search. *)
Definition context_of (hits : list ScoredPoint) : str :=
  join [NEWLINE]
       (map (fun h => dict_get_default (hit_payload h) (py "text") []) hits).

End UploadStatements.

(* ================================================================== *)
(** * Start-up of [main.py]: the collection is created when absent *)
(* ================================================================== *)

Module Startup.

Inductive Distance : Type := COSINE | EUCLID | DOT_PRODUCT | MANHATTAN.

(** A collection of the vector database: its name, its vector
    parameters and what it stores. *)
Record Collection (P : Type) : Type := {
  name : str;
  size : Z;
  distance : Distance;
  stored : list P
}.
Arguments name {P} _.
Arguments size {P} _.
Arguments distance {P} _.
Arguments stored {P} _.

Definition COLLECTION_NAME : str := py "rag_documents".
Definition VECTOR_SIZE : Z := 768.

(** [x in names] *)
Definition contains (names : list str) (x : str) : bool :=
  existsb (fun n => str_eqb n x) names.

(** The module-level statements after the client is built: the
    collections of the server afterwards and the line printed. *)
Definition ensure_collection {P : Type} (server : list (Collection P))
  : list (Collection P) * str :=
  if negb (contains (map name server) COLLECTION_NAME) then
    (server ++ [{| name := COLLECTION_NAME; size := VECTOR_SIZE;
                   distance := COSINE; stored := [] |}],
     py "Created collection `" ++ COLLECTION_NAME
     ++ py "` with vector size " ++ str_of_int VECTOR_SIZE)
  else
    (server, py "Collection `" ++ COLLECTION_NAME ++ py "` already exists").

End Startup.

(* ================================================================== *)
(** * The interactive client: [app.py] *)
(* ================================================================== *)

Module Client.

(** A (question, answer, context) triple of the history. *)
Definition QA : Type := (str * str * str)%type.

(** [st.session_state]; the four keys are created together at the top
    of the script, [fresh_session] holds their initial values. *)
Record Session : Type := {
  uploaded : bool;
  qa_pairs : list QA;
  last_uploaded : str;
  last_answer : option QA
}.

Definition fresh_session : Session :=
  {| uploaded := false; qa_pairs := []; last_uploaded := [];
     last_answer := None |}.

(** What [response.json()] gives: a dictionary, or the message of the
    exception it raises. *)
Inductive JsonResult : Type :=
| JsonDict (d : dict)
| JsonError (e : str).

(** What the script reads of an API response. *)
Record ApiResponse : Type := {
  ok : bool;
  json : JsonResult;
  body : str
}.

(** [requests.post] returns a response or raises [e]; [Failed] carries
    [str(e)]. *)
Inductive Outcome : Type :=
| Answered (r : ApiResponse)
| Failed (e : str).

(** The values of the widgets in one run of the script. *)
Record Widgets : Type := {
  reset_clicked : bool;
  uploaded_file : option UploadFile;
  question : str;
  ask_clicked : bool
}.

(** What the API would answer in this run, if called. *)
Record Replies : Type := {
  upload_reply : Outcome;
  ask_reply : Outcome
}.

(** What a run does that depends on the state: the API calls and the
    elements shown. Titles, headers of the input sections and the input
    widgets themselves are the same in every run and are left out. *)
#[local] Unset Elimination Schemes.
Inductive Shown : Type :=
| PostUpload (f : UploadFile)
| PostAsk (q : str)
| SidebarSuccess (msg : str)
| Success (msg : str)
| Error (msg : str)
| Markdown (msg : str)
| Header (msg : str)
| Text (t : str)
| Expander (title : str) (inside : list Shown).
#[local] Set Elimination Schemes.

Definition CHECK_MARK : str := [9989%N].
Definition CROSS_MARK : str := [10060%N].
Definition QUESTION_MARK : str := [10067%N].
Definition MAGNIFIER : str := [128269%N].
Definition BOOKS : str := [128218%N].

(** The sidebar: the reset button. *)
Definition handle_reset (wd : Widgets) (s : Session)
  : Session * list Shown :=
  if reset_clicked wd then
    ({| uploaded := false; qa_pairs := []; last_uploaded := [];
        last_answer := None |},
     [SidebarSuccess (py "Upload reset. Ready for a new file!")])
  else (s, []).

(** The upload section. *)
Definition handle_upload (wd : Widgets) (reply : Outcome) (s : Session)
  : Session * list Shown :=
  match uploaded_file wd with
  | Some f =>
      if negb (str_eqb (filename f) (last_uploaded s)) then
        match reply with
        | Failed e =>
            (s, [PostUpload f;
                 Error (CROSS_MARK ++ py " API connection error: " ++ e)])
        | Answered r =>
            if ok r then
              match json r with
              | JsonDict d =>
                  let msg := dict_get_default d (py "message")
                               (py "File uploaded successfully.") in
                  ({| uploaded := true; qa_pairs := [];
                      last_uploaded := filename f; last_answer := None |},
                   [PostUpload f; Success (CHECK_MARK ++ py " " ++ msg)])
              | JsonError e =>
                  (s, [PostUpload f;
                       Error (CROSS_MARK ++ py " API connection error: "
                              ++ e)])
              end
            else
              (s, [PostUpload f;
                   Error (CROSS_MARK ++ py " Upload failed: " ++ body r)])
        end
      else (s, [])
  | None => (s, [])
  end.

(** The ask section. *)
Definition handle_ask (wd : Widgets) (reply : Outcome) (s : Session)
  : Session * list Shown :=
  if ask_clicked wd && truthy (strip (question wd)) then
    match reply with
    | Failed e =>
        (s, [PostAsk (question wd);
             Error (CROSS_MARK ++ py " API connection error: " ++ e)])
    | Answered r =>
        if ok r then
          match json r with
          | JsonDict d =>
              let answer := dict_get_default d (py "answer")
                              (py "No answer received.") in
              let context := dict_get_default d (py "context") [] in
              ({| uploaded := uploaded s;
                  qa_pairs := qa_pairs s ++ [(question wd, answer, context)];
                  last_uploaded := last_uploaded s;
                  last_answer := Some (question wd, answer, context) |},
               [PostAsk (question wd); Markdown answer])
          | JsonError e =>
              (s, [PostAsk (question wd);
                   Error (CROSS_MARK ++ py " API connection error: " ++ e)])
          end
        else
          (s, [PostAsk (question wd);
               Error (CROSS_MARK ++ py " Error: " ++ body r)])
    end
  else (s, []).

(** [enumerate(l, start)] *)
Fixpoint enumerate {A : Type} (l : list A) (start : nat) : list (nat * A) :=
  match l with
  | [] => []
  | x :: r => (start, x) :: enumerate r (S start)
  end.

(** One expander of the history. *)
Definition history_entry (entry : nat * QA) : Shown :=
  let '(idx, (q, a, ctx)) := entry in
  Expander (QUESTION_MARK ++ py " Q" ++ str_of_int (Z.of_nat idx)
            ++ py ": " ++ q)
           (Markdown (py "**Answer:** " ++ a)
            :: if truthy ctx
               then [Expander (MAGNIFIER ++ py " View context used")
                              [Text ctx]]
               else []).

(** The history section. *)
Definition render_history (s : Session) : list Shown :=
  match qa_pairs s with
  | [] => []
  | _ :: _ =>
      Markdown (py "---") :: Header (BOOKS ++ py " Q&A History")
      :: map history_entry (enumerate (rev (qa_pairs s)) 1)
  end.

(** One run of the script, top to bottom. *)
Definition run (wd : Widgets) (env : Replies) (s : Session)
  : Session * list Shown :=
  let (s1, o1) := handle_reset wd s in
  let (s2, o2) := handle_upload wd (upload_reply env) s1 in
  let (s3, o3) := handle_ask wd (ask_reply env) s2 in
  (s3, o1 ++ o2 ++ o3 ++ render_history s3).

(** The API calls among what a run shows. *)
Definition api_calls (out : list Shown) : list Shown :=
  filter (fun o => match o with
                   | PostUpload _ | PostAsk _ => true
                   | _ => false
                   end) out.

(** The upload section has nothing to do: no file is selected, or the
    selected file has the name of the last upload. *)
Definition upload_idle (wd : Widgets) (s : Session) : bool :=
  match uploaded_file wd with
  | None => true
  | Some f => str_eqb (filename f) (last_uploaded s)
  end.

(** The API accepted the request and answered with a dictionary. *)
Definition accepted (reply : Outcome) : option dict :=
  match reply with
  | Answered r =>
      if ok r then match json r with JsonDict d => Some d | _ => None end
      else None
  | Failed _ => None
  end.

End Client.

(* ================================================================== *)
(** * Facts about the string operations *)
(* ================================================================== *)

Section StrFacts.

Lemma len_app (a b : str) : len (a ++ b) = (len a + len b)%Z.
Proof. unfold len. rewrite length_app. lia. Qed.

Lemma str_eqb_refl (s : str) : str_eqb s s = true.
Proof.
  induction s as [|c r IH]; simpl; [reflexivity|].
  rewrite N.eqb_refl. exact IH.
Qed.

Lemma lstrip_length (s : str) : (length (lstrip s) <= length s)%nat.
Proof.
  induction s as [|c r IH]; simpl; [lia|].
  destruct (isspace c); simpl; lia.
Qed.

Lemma strip_len_le (s : str) : (len (strip s) <= len s)%Z.
Proof.
  unfold len, strip, rstrip. rewrite length_rev.
  pose proof (lstrip_length (rev (lstrip s))) as H1.
  rewrite length_rev in H1.
  pose proof (lstrip_length s). lia.
Qed.

(** The terminator is not whitespace, so it stops both trims. *)
Lemma lstrip_before_dot (x rest : str) :
  lstrip (x ++ DOT :: rest) = lstrip x ++ DOT :: rest.
Proof.
  induction x as [|c r IH]; simpl; [reflexivity|].
  destruct (isspace c); [exact IH | reflexivity].
Qed.

Lemma rstrip_dot_end (y : str) : rstrip (y ++ [DOT]) = y ++ [DOT].
Proof.
  unfold rstrip. rewrite rev_app_distr. simpl.
  rewrite rev_involutive. reflexivity.
Qed.

Lemma strip_dot_end (x : str) : strip (x ++ [DOT]) = lstrip x ++ [DOT].
Proof.
  unfold strip. rewrite lstrip_before_dot. apply rstrip_dot_end.
Qed.

(** [split] never returns the empty list. *)
Lemma split_not_nil (s : str) (sep : char) : split s sep <> [].
Proof.
  destruct s as [|c r]; simpl; [discriminate|].
  destruct (N.eqb c sep); [discriminate|].
  destruct (split r sep); discriminate.
Qed.

(** The pieces of [split] do not contain the separator. *)
Lemma split_pieces_sep_free (s : str) (sep : char) :
  Forall (fun p => ~ In sep p) (split s sep).
Proof.
  induction s as [|c r IH]; simpl.
  - constructor; [intros []|constructor].
  - destruct (N.eqb_spec c sep) as [->|Hne].
    + constructor; [intros []|exact IH].
    + destruct (split r sep) as [|p ps]; simpl.
      * constructor; [|constructor]. intros [H|[]]. congruence.
      * inversion IH as [|? ? Hp Hps]; subst.
        constructor; [|exact Hps].
        intros [H|H]; [congruence|exact (Hp H)].
Qed.

(** Splitting a separator-free piece followed by a separator. *)
Lemma split_piece_sep (g rest : str) (sep : char) :
  ~ In sep g -> split (g ++ sep :: rest) sep = g :: split rest sep.
Proof.
  induction g as [|c r IH]; simpl; intros Hg.
  - rewrite N.eqb_refl. reflexivity.
  - destruct (N.eqb_spec c sep) as [->|Hne].
    + exfalso. apply Hg. left. reflexivity.
    + rewrite IH by (intros H; apply Hg; right; exact H). reflexivity.
Qed.

Lemma split_no_sep (s : str) (sep : char) :
  ~ In sep s -> split s sep = [s].
Proof.
  induction s as [|c r IH]; simpl; intros Hs; [reflexivity|].
  destruct (N.eqb_spec c sep) as [->|Hne].
  - exfalso. apply Hs. left. reflexivity.
  - rewrite IH by (intros H; apply Hs; right; exact H). reflexivity.
Qed.

Lemma lstrip_incl (s : str) (c : char) : In c (lstrip s) -> In c s.
Proof.
  induction s as [|a r IH]; simpl; [tauto|].
  destruct (isspace a); simpl; tauto.
Qed.

Lemma startswith_app (p x : str) : startswith (p ++ x) p = true.
Proof.
  induction p as [|c r IH]; simpl; [reflexivity|].
  rewrite N.eqb_refl. exact IH.
Qed.

Lemma endswith_app (name suffix : str) :
  endswith (name ++ suffix) suffix = true.
Proof. unfold endswith. rewrite rev_app_distr. apply startswith_app. Qed.

(** Two suffixes of the same length that differ in their last character
    exclude one another. *)
Lemma endswith_other (name : str) (c d : char) (s t : str) :
  c <> d -> endswith (name ++ s ++ [c]) (t ++ [d]) = false.
Proof.
  intros Hcd. unfold endswith.
  rewrite !rev_app_distr. simpl.
  destruct (N.eqb_spec c d); [contradiction|reflexivity].
Qed.

End StrFacts.

(* ================================================================== *)
(** * Properties of the Chunker *)
(* ================================================================== *)

Section ChunkerFacts.

Variable max_len : Z.

Lemma dotted_app (a b : list str) : dotted (a ++ b) = dotted a ++ dotted b.
Proof. unfold dotted. rewrite map_app, concat_app. reflexivity. Qed.

Lemma dotted_cons (f : str) (r : list str) :
  dotted (f :: r) = f ++ DOT :: dotted r.
Proof. unfold dotted. simpl. rewrite <- app_assoc. reflexivity. Qed.

Lemma dotted_ends_with_dot (f : str) (r : list str) :
  exists z, dotted (f :: r) = z ++ [DOT].
Proof.
  revert f. induction r as [|f' r IH]; intros f.
  - exists f. unfold dotted. simpl. rewrite app_nil_r. reflexivity.
  - destruct (IH f') as [z Hz]. exists (f ++ DOT :: z).
    rewrite dotted_cons, Hz, <- app_assoc. reflexivity.
Qed.

Lemma Forall2_trimmed_refl (fs : list str) : Forall2 trimmed_of fs fs.
Proof. induction fs; constructor; [left; reflexivity|assumption]. Qed.

(** Trimming a buffer only removes leading whitespace of its first
    fragment. *)
Lemma strip_dotted (fs : list str) :
  exists gs, strip (dotted fs) = dotted gs /\ Forall2 trimmed_of gs fs.
Proof.
  destruct fs as [|f r].
  - exists []. split; [reflexivity|constructor].
  - exists (lstrip f :: r). split.
    + unfold strip. rewrite dotted_cons, lstrip_before_dot.
      rewrite <- dotted_cons.
      destruct (dotted_ends_with_dot (lstrip f) r) as [z' Hz'].
      rewrite Hz'. apply rstrip_dot_end.
    + constructor; [right; reflexivity|apply Forall2_trimmed_refl].
Qed.

Lemma chunk_step_accounts st F s :
  accounts st F -> accounts (chunk_step max_len st s) (F ++ [s]).
Proof.
  destruct st as [chunks cur].
  intros (gs & pre & fcur & Hc & Hb & Hr & HF). simpl in Hc, Hb.
  unfold chunk_step.
  destruct (len cur + len s <? max_len)%Z.
  - exists gs, pre, (fcur ++ [s]). simpl. repeat split; auto.
    + rewrite Hb, dotted_app. unfold dotted at 3. simpl.
      rewrite app_nil_r. reflexivity.
    + rewrite HF, app_assoc. reflexivity.
  - destruct (strip_dotted fcur) as (gcur & Hs & Hg).
    exists (gs ++ gcur), (pre ++ fcur), [s]. simpl. repeat split.
    + rewrite concat_app, Hc, dotted_app. simpl.
      rewrite app_nil_r, Hb, Hs. reflexivity.
    + unfold dotted. simpl. rewrite app_nil_r. reflexivity.
    + apply Forall2_app; assumption.
    + rewrite HF. reflexivity.
Qed.

Lemma chunk_loop_accounts ss : forall st F,
  accounts st F -> accounts (chunk_loop max_len ss st) (F ++ ss).
Proof.
  induction ss as [|s ss IH]; intros st F H; simpl.
  - rewrite app_nil_r. exact H.
  - replace (F ++ s :: ss) with ((F ++ [s]) ++ ss)
      by (rewrite <- app_assoc; reflexivity).
    apply IH. apply chunk_step_accounts. exact H.
Qed.

(** The produced chunks, concatenated, spell the fragments of the text,
    each followed by a terminator and each possibly left-trimmed. *)
Lemma chunk_text_spells (txt : str) :
  exists gs, concat (chunk_text txt max_len) = dotted gs /\
             Forall2 trimmed_of gs (split txt DOT).
Proof.
  unfold chunk_text.
  pose proof (@chunk_loop_accounts (split txt DOT) ([], []) []) as H.
  simpl app in H.
  destruct (chunk_loop max_len (split txt DOT) ([], [])) as [chunks cur].
  destruct H as (gs & pre & fcur & Hc & Hb & Hr & HF).
  { exists [], [], []. repeat split; constructor. }
  simpl in Hc, Hb.
  destruct cur as [|c cur']; simpl.
  - destruct fcur as [|f r].
    + exists gs. rewrite HF, app_nil_r. split; assumption.
    + destruct (dotted_ends_with_dot f r) as [z Hz].
      rewrite Hz in Hb. destruct z; discriminate.
  - destruct (strip_dotted fcur) as (gcur & Hs & Hg).
    exists (gs ++ gcur). split.
    + rewrite concat_app, Hc, dotted_app. simpl.
      rewrite app_nil_r, Hb, Hs. reflexivity.
    + rewrite HF. apply Forall2_app; assumption.
Qed.

Lemma undotted_dotted (gs : list str) :
  Forall (fun g => ~ In DOT g) gs -> undotted (dotted gs) = gs.
Proof.
  unfold undotted. intros H.
  assert (Hsplit : split (dotted gs) DOT = gs ++ [[]]).
  { induction H as [|g gs Hg Hgs IH]; [reflexivity|].
    rewrite dotted_cons, split_piece_sep by exact Hg.
    rewrite IH. reflexivity. }
  rewrite Hsplit. apply removelast_last.
Qed.

Lemma trimmed_dot_free (gs fs : list str) :
  Forall2 trimmed_of gs fs ->
  Forall (fun f => ~ In DOT f) fs -> Forall (fun g => ~ In DOT g) gs.
Proof.
  induction 1 as [|g f gs fs Hgf _ IH]; intros Hfs; constructor;
    inversion Hfs; subst; auto.
  destruct Hgf as [->| ->]; [assumption|].
  intros Hin. apply lstrip_incl in Hin. contradiction.
Qed.

(** ** The length bound *)

Lemma chunk_step_bound (frags : list str) st s :
  In s frags ->
  Forall (within_bound frags max_len) (fst st) ->
  buffer_within_bound frags max_len (snd st) ->
  Forall (within_bound frags max_len) (fst (chunk_step max_len st s)) /\
  buffer_within_bound frags max_len (snd (chunk_step max_len st s)).
Proof.
  destruct st as [chunks cur]. simpl. intros Hs Hch Hcur.
  unfold chunk_step.
  destruct (Z.ltb_spec (len cur + len s) max_len) as [Hlt|Hge]; simpl.
  - split; [assumption|]. left. rewrite !len_app. unfold len at 3. simpl. lia.
  - split.
    + apply Forall_app. split; [assumption|]. constructor; [|constructor].
      destruct Hcur as [Hle|(s0 & Hin & Hlen & ->)].
      * left. pose proof (strip_len_le cur). lia.
      * right. exists s0. repeat split; assumption.
    + destruct (Z.le_gt_cases max_len (len s)) as [Hbig|Hsmall].
      * right. exists s. repeat split; assumption.
      * left. rewrite len_app. unfold len at 2. simpl. lia.
Qed.

Lemma chunk_loop_bound (frags : list str) ss : forall st,
  incl ss frags ->
  Forall (within_bound frags max_len) (fst st) ->
  buffer_within_bound frags max_len (snd st) ->
  Forall (within_bound frags max_len) (fst (chunk_loop max_len ss st)) /\
  buffer_within_bound frags max_len (snd (chunk_loop max_len ss st)).
Proof.
  induction ss as [|s ss IH]; intros st Hincl Hch Hcur; simpl.
  - split; assumption.
  - destruct (@chunk_step_bound frags st s) as [H1 H2]; auto.
    + apply Hincl. left. reflexivity.
    + apply IH; auto. intros x Hx. apply Hincl. right. exact Hx.
Qed.

(** ** The number of chunks *)

(** The buffer is never empty once a fragment has been read. *)
Lemma chunk_loop_buffer_nonempty ss : forall st,
  ss <> [] \/ snd st <> [] -> snd (chunk_loop max_len ss st) <> [].
Proof.
  induction ss as [|s ss IH]; intros [chunks cur] H; simpl.
  - destruct H as [H|H]; [congruence|exact H].
  - apply IH. right. unfold chunk_step.
    destruct (len cur + len s <? max_len)%Z; simpl.
    + destruct cur; [destruct s|]; discriminate.
    + destruct s; discriminate.
Qed.

(** The Chunker always returns at least one chunk. *)
Lemma chunk_text_not_nil (txt : str) : chunk_text txt max_len <> [].
Proof.
  unfold chunk_text.
  pose proof (@chunk_loop_buffer_nonempty (split txt DOT) ([], [])
                (or_introl (@split_not_nil txt DOT))) as H.
  destruct (chunk_loop max_len (split txt DOT) ([], [])) as [chunks cur].
  simpl in H. destruct cur as [|c cur']; [congruence|]. simpl.
  destruct chunks; discriminate.
Qed.

(** A text without terminator that fits the budget gives one chunk. *)
Lemma chunk_text_no_terminator_short (txt : str) :
  ~ In DOT txt -> (len txt < max_len)%Z ->
  chunk_text txt max_len = [strip (txt ++ [DOT])].
Proof.
  intros Hdot Hlen. unfold chunk_text, chunk_loop.
  rewrite split_no_sep by exact Hdot. cbn [fold_left chunk_step].
  replace (len [] + len txt <? max_len)%Z with true
    by (symmetry; apply Z.ltb_lt; change (len []) with 0%Z; lia).
  destruct txt; reflexivity.
Qed.

(** A text without terminator that does not fit gives two chunks, the
    first of them empty. *)
Lemma chunk_text_no_terminator_long (txt : str) :
  ~ In DOT txt -> (max_len <= len txt)%Z ->
  chunk_text txt max_len = [[]; strip (txt ++ [DOT])].
Proof.
  intros Hdot Hlen. unfold chunk_text, chunk_loop.
  rewrite split_no_sep by exact Hdot. cbn [fold_left chunk_step].
  replace (len [] + len txt <? max_len)%Z with false
    by (symmetry; apply Z.ltb_ge; change (len []) with 0%Z; lia).
  destruct txt; reflexivity.
Qed.

End ChunkerFacts.

Section ChunkerClaims.

(** Only the chunk flushed before the first fragment can be empty. *)
Lemma chunk_loop_tail_nonempty (max_len : Z) ss : forall st,
  Forall (fun c => c <> []) (tl (fst st)) ->
  (snd st = [] \/ exists x, snd st = x ++ [DOT]) ->
  (snd st = [] -> fst st = []) ->
  let st' := chunk_loop max_len ss st in
  Forall (fun c => c <> []) (tl (fst st')) /\
  (snd st' = [] \/ exists x, snd st' = x ++ [DOT]) /\
  (snd st' = [] -> fst st' = []).
Proof.
  induction ss as [|s ss IH]; intros [chunks cur] Hch Hcur Hemp; simpl.
  - auto.
  - apply IH; unfold chunk_step; simpl in *;
      destruct (len cur + len s <? max_len)%Z; simpl.
    + exact Hch.
    + destruct chunks as [|c0 chunks]; simpl; [constructor|].
      apply Forall_app. split; [exact Hch|].
      constructor; [|constructor].
      destruct Hcur as [->|[x ->]]; [specialize (Hemp eq_refl); discriminate|].
      rewrite strip_dot_end. destruct (lstrip x); discriminate.
    + right. exists (cur ++ s). rewrite <- app_assoc. reflexivity.
    + right. exists s. reflexivity.
    + intros H. destruct cur; [destruct s|]; discriminate.
    + intros H. destruct s; discriminate.
Qed.

Lemma chunk_text_tail_nonempty (txt : str) (max_len : Z) :
  Forall (fun c => c <> []) (tl (chunk_text txt max_len)).
Proof.
  unfold chunk_text.
  match goal with
  | |- context [chunk_loop ?m ?ss ?st] =>
      pose proof (@chunk_loop_tail_nonempty m ss st (Forall_nil _)
                    (or_introl eq_refl) (fun _ => eq_refl)) as H;
      cbv zeta in H; revert H;
      destruct (chunk_loop m ss st) as [chunks cur]
  end.
  simpl. intros (H1 & H2 & H3). destruct cur as [|c cur']; simpl; [exact H1|].
  destruct chunks as [|c0 chunks]; simpl; [constructor|].
  apply Forall_app. split; [exact H1|]. constructor; [|constructor].
  destruct H2 as [H2|[x H2]]; [discriminate|]. rewrite H2, strip_dot_end.
  destruct (lstrip x); discriminate.
Qed.

(** C2, as amended. For every text and every non-negative maximum, each
    chunk produced by [chunk_text] is at most [max_len] characters long,
    unless it is a single fragment of the text (with its terminator,
    trimmed) whose own length is at least [max_len]. *)
Theorem chunk_text_length_bound (txt : str) (max_len : Z) :
  (0 <= max_len)%Z ->
  Forall (within_bound (split txt DOT) max_len) (chunk_text txt max_len).
Proof.
  intros Hmax. unfold chunk_text.
  destruct (@chunk_loop_bound max_len (split txt DOT) (split txt DOT)
              ([], [])) as [Hch Hcur].
  - apply incl_refl.
  - constructor.
  - left. exact Hmax.
  - destruct (chunk_loop max_len (split txt DOT) ([], [])) as [chunks cur].
    simpl in Hch, Hcur.
    destruct (truthy cur); [|exact Hch].
    apply Forall_app. split; [exact Hch|]. constructor; [|constructor].
    destruct Hcur as [Hle|(s & Hin & Hlen & ->)].
    + left. pose proof (strip_len_le cur). lia.
    + right. exists s. repeat split; assumption.
Qed.

Lemma chunk_text_length_bound_witness :
  (0 <= 4)%Z /\
  Forall (within_bound (split (py "abc") DOT) 4) (chunk_text (py "abc") 4).
Proof.
  split; [lia|]. apply (@chunk_text_length_bound (py "abc") 4). lia.
Defined.

(** C2, as stated, fails: with [max_len = 4] the text [abc] gives the
    chunk [abc.], which is 4 characters long although no fragment is
    longer than 4; the text [abcd] gives the 5-character chunk [abcd.]
    although its only fragment does not exceed 4. *)
Lemma chunk_text_strict_bound_fails :
  ~ Forall (strictly_within_bound (split (py "abc") DOT) 4)
           (chunk_text (py "abc") 4) /\
  ~ Forall (strictly_within_bound (split (py "abcd") DOT) 4)
           (chunk_text (py "abcd") 4).
Proof.
  split; intros H.
  - inversion H as [|c l Hc _]; subst.
    destruct Hc as [Hlt|(s & [<-|[]] & Hlen)]; vm_compute in *; discriminate.
  - inversion H as [|c0 l0 _ Htl]; subst.
    inversion Htl as [|c l Hc _]; subst.
    destruct Hc as [Hlt|(s & [<-|[]] & Hlen)]; vm_compute in *; discriminate.
Qed.

(** C5: the first chunk is the empty string whenever the first fragment
    does not fit the budget. The flush inside the loop appends the trimmed
    buffer without the emptiness test that guards the final flush. *)
Theorem chunk_text_empty_first_chunk :
  chunk_text (repeat 97%N 1500) DEFAULT_MAX_LEN
  = [[]; repeat 97%N 1500 ++ [DOT]] /\
  chunk_text (py "abc") 3 = [[]; py "abc."].
Proof. split; vm_compute; reflexivity. Qed.

(** C6: an empty or whitespace-only text gives one chunk, the lone
    terminator, not zero chunks; a text without terminator as long as the
    budget gives two chunks, not one. *)
Theorem chunk_text_blank_text_gives_terminator :
  chunk_text [] DEFAULT_MAX_LEN = [[DOT]] /\
  chunk_text (py "   ") DEFAULT_MAX_LEN = [[DOT]] /\
  length (chunk_text (repeat 97%N 1500) DEFAULT_MAX_LEN) = 2%nat.
Proof. repeat split; vm_compute; reflexivity. Qed.

(** C7: cutting the concatenated chunks at the terminators gives back the
    fragments of the text, one for one and in order, each either intact
    or without its leading whitespace. *)
Theorem chunk_text_roundtrip (txt : str) (max_len : Z) :
  Forall2 trimmed_of
          (undotted (concat (chunk_text txt max_len)))
          (split txt DOT).
Proof.
  destruct (chunk_text_spells max_len txt) as (gs & Hc & Hr).
  rewrite Hc, undotted_dotted; [exact Hr|].
  apply (trimmed_dot_free Hr). apply split_pieces_sep_free.
Qed.

End ChunkerClaims.

(* ================================================================== *)
(** * Properties of the vector store model *)
(* ================================================================== *)

Section StoreFacts.

Context {E : Externals}.

Lemma firstn_incl {A : Type} (n : nat) (l : list A) (x : A) :
  In x (firstn n l) -> In x l.
Proof.
  revert n. induction l as [|a r IH]; intros [|n]; simpl; try tauto.
  intros [H|H]; [left; exact H|right; exact (IH n H)].
Qed.

Lemma insert_desc_perm (h : ScoredPoint) (l : list ScoredPoint) :
  Permutation (h :: l) (insert_desc h l).
Proof.
  induction l as [|x r IH]; simpl; [apply Permutation_refl|].
  destruct (Qle_bool (score x) (score h)); [apply Permutation_refl|].
  eapply Permutation_trans; [apply perm_swap|].
  apply perm_skip. exact IH.
Qed.

Lemma rank_perm (l : list ScoredPoint) : Permutation l (rank l).
Proof.
  induction l as [|x r IH]; simpl; [constructor|].
  eapply Permutation_trans; [|apply insert_desc_perm].
  apply perm_skip. exact IH.
Qed.

Lemma insert_desc_sorted (h : ScoredPoint) (l : list ScoredPoint) :
  StronglySorted by_score_desc l ->
  StronglySorted by_score_desc (insert_desc h l).
Proof.
  induction 1 as [|x r Hr IH Hx]; simpl.
  - constructor; constructor.
  - destruct (Qle_bool (score x) (score h)) eqn:Hle.
    + apply Qle_bool_iff in Hle.
      constructor; [constructor; assumption|].
      constructor; [exact Hle|].
      eapply Forall_impl; [|exact Hx].
      intros y Hy. unfold by_score_desc in *.
      eapply Qle_trans; eassumption.
    + assert (Hlt : (score h <= score x)%Q).
      { apply Qlt_le_weak, Qnot_le_lt. intros Hc.
        apply Qle_bool_iff in Hc. congruence. }
      constructor; [exact IH|].
      eapply Permutation_Forall; [apply insert_desc_perm|].
      constructor; assumption.
Qed.

Lemma rank_sorted (l : list ScoredPoint) :
  StronglySorted by_score_desc (rank l).
Proof.
  induction l as [|x r IH]; simpl; [constructor|].
  apply insert_desc_sorted. exact IH.
Qed.

Lemma firstn_sorted (n : nat) (l : list ScoredPoint) :
  StronglySorted by_score_desc l ->
  StronglySorted by_score_desc (firstn n l).
Proof.
  intros H. revert n. induction H as [|x r Hr IH Hx]; intros [|n]; simpl;
    try constructor.
  - apply IH.
  - apply Forall_forall. intros y Hy.
    apply (proj1 (Forall_forall _ _) Hx). eapply firstn_incl; eassumption.
Qed.

(** The first [n] of a ranking dominate everything left out. *)
Lemma firstn_dominates (n : nat) (l : list ScoredPoint) :
  StronglySorted by_score_desc l ->
  Forall (fun x => In x (firstn n l) \/
                   Forall (fun h => by_score_desc h x) (firstn n l)) l.
Proof.
  intros H. revert n. induction H as [|x r Hr IH Hx]; intros n;
    [constructor|].
  destruct n as [|n]; simpl.
  - apply Forall_forall. intros y _. right. constructor.
  - constructor; [left; left; reflexivity|].
    specialize (IH n). rewrite Forall_forall in IH, Hx.
    apply Forall_forall. intros y Hy.
    destruct (IH y Hy) as [Hin|Hdom]; [left; right; exact Hin|].
    right. constructor; [apply Hx; exact Hy|exact Hdom].
Qed.

(** An upserted point is in the collection afterwards. *)
Lemma upsert_point_in (p : PointStruct) (coll : list PointStruct) :
  In p (upsert_point p coll).
Proof.
  induction coll as [|q r IH]; simpl; [left; reflexivity|].
  destruct (id p <? id q)%N; [left; reflexivity|].
  destruct (id p =? id q)%N; [left; reflexivity|right; exact IH].
Qed.

End StoreFacts.

(* ================================================================== *)
(** * Properties of the endpoints *)
(* ================================================================== *)

Section EndpointFacts.

Context {E : Externals}.

Lemma rank_not_nil (l : list ScoredPoint) : l <> [] -> rank l <> [].
Proof.
  intros Hl Hr. apply Hl. apply Permutation_nil.
  apply Permutation_sym. rewrite <- Hr. apply rank_perm.
Qed.

Lemma search_hits_not_nil (qv : vector) (w : World) :
  points w <> [] ->
  firstn 3 (rank (map (score_point qv) (points w))) <> [].
Proof.
  intros Hw.
  assert (H : rank (map (score_point qv) (points w)) <> []).
  { apply rank_not_nil. destruct (points w); [congruence|discriminate]. }
  destruct (rank (map (score_point qv) (points w))); [congruence|discriminate].
Qed.

(** C3: against an empty collection [ask] returns the fixed answer with
    an empty context, having called the embedder and the search but not
    the chat-completion endpoint. *)
Theorem ask_empty_collection (question : str) (w : World) :
  points w = [] ->
  ask question w =
    (Ok [(py "answer", py "No relevant context found."); (py "context", [])],
     log (CallSearch 3) (log (CallEncode [question]) w)) /\
  calls (snd (ask question w)) =
    calls w ++ [CallEncode [question]; CallSearch 3].
Proof.
  intros Hw.
  assert (Hask : ask question w =
    (Ok NO_CONTEXT, log (CallSearch 3) (log (CallEncode [question]) w))).
  { unfold ask, bind, embedder_encode_one, qdrant_search.
    change (points (log (CallEncode [question]) w)) with (points w).
    rewrite Hw. reflexivity. }
  split; [exact Hask|].
  rewrite Hask. simpl. rewrite <- app_assoc. reflexivity.
Qed.

(** What [ask] does when the search finds something. *)
Lemma ask_with_hits (question : str) (w : World) :
  points w <> [] ->
  let hits :=
    firstn 3 (rank (map (score_point (embedder_encode question)) (points w))) in
  let context :=
    join [NEWLINE]
         (map (fun h => dict_get_default (hit_payload h) (py "text") []) hits) in
  let req := chat_request question context in
  ask question w =
    (match requests_post req with
     | Ok resp =>
         Ok [(py "answer",
              match reply_content resp with
              | Some content => content
              | None => error_text resp
              end);
             (py "context", context)]
     | Raise e => Raise e
     end,
     log (CallChat req) (log (CallSearch 3) (log (CallEncode [question]) w))).
Proof.
  intros Hw hits context req.
  pose proof (@search_hits_not_nil (embedder_encode question) w Hw) as Hh.
  fold hits in Hh.
  unfold ask, bind, embedder_encode_one, qdrant_search.
  change (points (log (CallEncode [question]) w)) with (points w).
  fold hits. subst req context.
  destruct hits as [|h0 hs]; [congruence|].
  unfold query_huggingface_chat, bind, post.
  destruct (requests_post _) as [resp|e]; [|reflexivity].
  destruct (reply_content resp); reflexivity.
Qed.

(** C4: against a populated collection the search returns three stored
    records, or all of them when there are fewer, each with the id, the
    payload and the cosine similarity to the embedded question of a
    stored record, in order of decreasing similarity; no record left out
    is more similar than a retrieved one. The context of the response,
    which is also the context sent to the chat endpoint, is the texts of
    those records in that order, separated by newlines. *)
Theorem ask_context_from_top3 (question : str) (w : World) :
  points w <> [] ->
  let qv := embedder_encode question in
  let text_of := fun h => dict_get_default (hit_payload h) (py "text") [] in
  exists hits : list ScoredPoint,
    fst (qdrant_search qv 3 w) = Ok hits /\
    length hits = Nat.min 3 (length (points w)) /\
    hits <> [] /\ (length hits <= 3)%nat /\
    StronglySorted (fun a b => (score b <= score a)%Q) hits /\
    Forall (fun h => exists p,
                In p (points w) /\ hit_id h = id p /\
                hit_payload h = payload p /\
                score h = cosine qv (point_vector p))
           hits /\
    Forall (fun p =>
              (exists h, In h hits /\ hit_id h = id p /\
                         hit_payload h = payload p /\
                         score h = cosine qv (point_vector p)) \/
              Forall (fun h => (cosine qv (point_vector p) <= score h)%Q) hits)
           (points w) /\
    exists context : str,
      context = match map text_of hits with
                | [t1] => t1
                | [t1; t2] => t1 ++ [NEWLINE] ++ t2
                | [t1; t2; t3] => t1 ++ [NEWLINE] ++ t2 ++ [NEWLINE] ++ t3
                | _ => []
                end /\
      fst (ask question w) =
        match requests_post (chat_request question context) with
        | Ok resp =>
            Ok [(py "answer",
                 match reply_content resp with
                 | Some content => content
                 | None => error_text resp
                 end);
                (py "context", context)]
        | Raise e => Raise e
        end.
Proof.
  intros Hw qv text_of.
  set (ranked := rank (map (score_point qv) (points w))).
  assert (Hsorted : StronglySorted by_score_desc ranked) by apply rank_sorted.
  assert (Hperm : Permutation (map (score_point qv) (points w)) ranked)
    by apply rank_perm.
  assert (Hlen : (length (firstn 3 ranked) <= 3)%nat)
    by apply firstn_le_length.
  exists (firstn 3 ranked).
  split; [reflexivity|].
  split.
  { rewrite length_firstn, <- (Permutation_length Hperm), length_map.
    reflexivity. }
  split; [apply search_hits_not_nil; exact Hw|].
  split; [exact Hlen|].
  split; [exact (firstn_sorted 3 Hsorted)|].
  split.
  { apply Forall_forall. intros h Hh.
    apply firstn_incl in Hh.
    apply (Permutation_in _ (Permutation_sym Hperm)) in Hh.
    apply in_map_iff in Hh. destruct Hh as (p & <- & Hin).
    exists p. repeat split. exact Hin. }
  split.
  { apply Forall_forall. intros p Hp.
    pose proof (firstn_dominates 3 Hsorted) as Hdom.
    rewrite Forall_forall in Hdom.
    destruct (Hdom (score_point qv p)) as [Hin|Hle].
    - apply (Permutation_in _ Hperm). apply in_map. exact Hp.
    - left. exists (score_point qv p). repeat split. exact Hin.
    - right. exact Hle. }
  eexists. split; [reflexivity|].
  rewrite (@ask_with_hits question w Hw).
  fold qv. fold ranked. cbn [fst].
  destruct (firstn 3 ranked) as [|h1 [|h2 [|h3 [|h4 rest]]]];
    try reflexivity.
  simpl in Hlen. lia.
Qed.

(** C8: a file whose name ends neither in [.txt] nor in [.pdf] is refused
    with status 400 and the message naming PDF and TXT; nothing is
    stored, no external call is made, the state is untouched. *)
Theorem upload_unsupported_format (f : UploadFile) (w : World) :
  endswith (filename f) (py ".txt") = false ->
  endswith (filename f) (py ".pdf") = false ->
  upload_file f w =
    (Raise (HTTPException 400 (py "Only PDF or TXT supported")), w).
Proof.
  intros Htxt Hpdf.
  unfold upload_file, bind, lift, extract_text.
  rewrite Htxt, Hpdf. reflexivity.
Qed.

(** C9: when no reply can be read from the chat-completion response (an
    error body, a body that is not JSON, a missing or ill-typed field),
    [ask] returns the status code and the body text of that response as
    its answer; when the call itself raises, the exception leaves [ask]
    as it is. Either way the endpoint is called once. *)
Theorem ask_chat_failure_surfaced (question : str) (w : World) :
  let context :=
    join [NEWLINE]
         (map (fun h => dict_get_default (hit_payload h) (py "text") [])
              (firstn 3 (rank (map (score_point (embedder_encode question))
                                   (points w))))) in
  let req := chat_request question context in
  let w' :=
    log (CallChat req) (log (CallSearch 3) (log (CallEncode [question]) w)) in
  points w <> [] ->
  (forall resp : Response,
      requests_post req = Ok resp ->
      reply_content resp = None ->
      ask question w =
        (Ok [(py "answer",
              py "Error: " ++ str_of_int (status_code resp) ++ py " - "
              ++ text resp);
             (py "context", context)],
         w')) /\
  (forall e : exn,
      requests_post req = Raise e ->
      ask question w = (Raise e, w')).
Proof.
  intros context req w' Hw.
  rewrite (@ask_with_hits question w Hw).
  fold context. fold req. fold w'.
  split.
  - intros resp Hpost Hreply. rewrite Hpost, Hreply. reflexivity.
  - intros e Hpost. rewrite Hpost. reflexivity.
Qed.

(** C10: [extract_text] looks at the end of the file name only. A name
    ending in [.txt] has the bytes decoded as UTF-8 and a name ending in
    [.pdf] goes to the PDF reader, whatever the declared content type;
    a name ending in [.TXT] or [.PDF] is refused with status 400. *)
Theorem extract_text_by_suffix (name ctype : str) (body : Utf8.bytes) :
  extract_text {| filename := name ++ py ".txt"; content_type := ctype;
                  file := body |}
  = match Utf8.decode body with
    | Some s => Ok s
    | None => Raise UnicodeDecodeError
    end /\
  extract_text {| filename := name ++ py ".pdf"; content_type := ctype;
                  file := body |}
  = match pdfplumber_pages body with
    | Ok pages => concat_pages [] pages
    | Raise e => Raise e
    end /\
  extract_text {| filename := name ++ py ".TXT"; content_type := ctype;
                  file := body |}
  = Raise (HTTPException 400 (py "Only PDF or TXT supported")) /\
  extract_text {| filename := name ++ py ".PDF"; content_type := ctype;
                  file := body |}
  = Raise (HTTPException 400 (py "Only PDF or TXT supported")).
Proof.
  unfold extract_text. simpl filename. simpl file.
  rewrite (endswith_app name (py ".txt")).
  rewrite (endswith_app name (py ".pdf")).
  assert (Hpt : endswith (name ++ py ".pdf") (py ".txt") = false)
    by (apply (@endswith_other name 102%N 116%N (py ".pd") (py ".tx"));
        discriminate).
  assert (HTt : endswith (name ++ py ".TXT") (py ".txt") = false)
    by (apply (@endswith_other name 84%N 116%N (py ".TX") (py ".tx"));
        discriminate).
  assert (HTp : endswith (name ++ py ".TXT") (py ".pdf") = false)
    by (apply (@endswith_other name 84%N 102%N (py ".TX") (py ".pd"));
        discriminate).
  assert (HPt : endswith (name ++ py ".PDF") (py ".txt") = false)
    by (apply (@endswith_other name 70%N 116%N (py ".PD") (py ".tx"));
        discriminate).
  assert (HPp : endswith (name ++ py ".PDF") (py ".pdf") = false)
    by (apply (@endswith_other name 70%N 102%N (py ".PD") (py ".pd"));
        discriminate).
  rewrite Hpt, HTt, HTp, HPt, HPp. repeat split; reflexivity.
Qed.

End EndpointFacts.

(* ================================================================== *)
(** * De-duplication on upload *)
(* ================================================================== *)

Section DedupFacts.

Context {E : Externals}.

Lemma has_hash_firstn (h : str) (n : nat) (pts : list PointStruct) :
  has_hash h (firstn n pts) = true -> has_hash h pts = true.
Proof.
  unfold has_hash. rewrite !existsb_exists.
  intros (p & Hin & Hp). exists p. split; [|exact Hp].
  eapply firstn_incl. exact Hin.
Qed.

(** The points built for an upload carry the hash of the document; only
    the UUID counter of the state moves. *)
Lemma build_points_spec (h : str) (items : list (str * vector)) :
  forall w, exists ps w',
    build_points h items w = (Ok ps, w') /\
    length ps = length items /\
    Forall (fun p => dict_get (payload p) (py "file_hash") = Some h) ps /\
    points w' = points w /\ calls w' = calls w.
Proof.
  induction items as [|[chunk embedding] rest IH]; intros w; simpl.
  - exists [], w. repeat split. constructor.
  - unfold bind, uuid4.
    match goal with
    | |- context [build_points h rest ?w1] =>
        destruct (IH w1) as (ps & w' & Hb & Hlen & Hall & Hpts & Hcalls)
    end.
    rewrite Hb. eexists. eexists. split; [reflexivity|].
    split; [simpl; rewrite Hlen; reflexivity|].
    split; [constructor; [reflexivity|exact Hall]|].
    split; assumption.
Qed.

Lemma fold_upsert_has_hash (h : str) (ps coll : list PointStruct) :
  ps <> [] ->
  Forall (fun p => dict_get (payload p) (py "file_hash") = Some h) ps ->
  has_hash h (fold_left (fun c p => upsert_point p c) ps coll) = true.
Proof.
  revert coll. induction ps as [|p ps' IH] using rev_ind; intros coll Hne Hall;
    [congruence|].
  rewrite fold_left_app. simpl.
  apply Forall_app in Hall. destruct Hall as [_ Hp].
  inversion Hp as [|? ? Hhash _]; subst.
  unfold has_hash. apply existsb_exists. exists p. split.
  - apply upsert_point_in.
  - rewrite Hhash. apply str_eqb_refl.
Qed.

(** An upload found on the scrolled page is skipped: only the scroll
    is performed. *)
Lemma upload_duplicate_skipped (f : UploadFile) (w : World) (txt h : str) :
  extract_text f = Ok txt ->
  compute_hash txt = Ok h ->
  has_hash h (firstn SCROLL_DEFAULT_LIMIT (points w)) = true ->
  upload_file f w =
    (Ok [(py "message", py "File already processed")], log CallScroll w).
Proof.
  intros Hx Hh Hfound.
  unfold upload_file, bind, lift. rewrite Hx. unfold ret at 1.
  rewrite Hh. unfold ret at 1. unfold qdrant_scroll.
  cbn [fst]. rewrite Hfound. reflexivity.
Qed.

(** After an upload that went through, some stored point carries the
    hash of the document. *)
Lemma upload_leaves_hash (f : UploadFile) (w : World) (txt h : str) :
  extract_text f = Ok txt ->
  compute_hash txt = Ok h ->
  has_hash h (points (snd (upload_file f w))) = true.
Proof.
  intros Hx Hh.
  destruct (has_hash h (firstn SCROLL_DEFAULT_LIMIT (points w))) eqn:Hfound.
  - rewrite (upload_duplicate_skipped f w Hx Hh Hfound).
    apply (has_hash_firstn _ _ _ Hfound).
  - unfold upload_file, bind, lift. rewrite Hx. unfold ret at 1.
    rewrite Hh. unfold ret at 1. unfold qdrant_scroll.
    cbn [fst]. rewrite Hfound.
    unfold embedder_encode_list.
    match goal with
    | |- context [build_points h ?items ?w1] =>
        destruct (build_points_spec h items w1)
          as (ps & w' & Hb & Hlen & Hall & Hpts & Hcalls);
        rewrite Hb
    end.
    unfold qdrant_upsert, ret. cbn [snd].
    change (points (log ?c ?x)) with (points x).
    cbn [points set_points].
    apply fold_upsert_has_hash; [|exact Hall].
    intros ->. simpl in Hlen. symmetry in Hlen.
    rewrite length_combine, length_map, Nat.min_id in Hlen.
    apply length_zero_iff_nil in Hlen.
    exact (chunk_text_not_nil _ _ Hlen).
Qed.

(** An upload whose hash is not on the scrolled page is processed,
    whatever the rest of the collection holds. *)
Lemma upload_processed_when_hash_off_page
  (f : UploadFile) (w : World) (txt h : str) :
  extract_text f = Ok txt ->
  compute_hash txt = Ok h ->
  has_hash h (firstn SCROLL_DEFAULT_LIMIT (points w)) = false ->
  fst (upload_file f w) =
    Ok [(py "message",
         py "File processed and "
         ++ str_of_int (Z.of_nat (length (chunk_text txt DEFAULT_MAX_LEN)))
         ++ py " chunks stored.")].
Proof.
  intros Hx Hh Hmiss.
  unfold upload_file, bind, lift. rewrite Hx. unfold ret at 1.
  rewrite Hh. unfold ret at 1. unfold qdrant_scroll.
  cbn [fst]. rewrite Hmiss.
  unfold embedder_encode_list.
  match goal with
  | |- context [build_points h ?items ?w1] =>
      destruct (build_points_spec h items w1)
        as (ps & w' & Hb & _);
      rewrite Hb
  end.
  reflexivity.
Qed.

(** X11: when the collection still fits on one scroll page after the
    first upload, a second upload of the same text, under any file
    name, is skipped: it answers that the file was already processed and
    only scrolls. *)
Lemma duplicate_detected_within_first_page
  (f1 f2 : UploadFile) (w : World) (txt h : str) :
  extract_text f1 = Ok txt ->
  extract_text f2 = Ok txt ->
  compute_hash txt = Ok h ->
  (length (points (snd (upload_file f1 w))) <= SCROLL_DEFAULT_LIMIT)%nat ->
  upload_file f2 (snd (upload_file f1 w)) =
    (Ok [(py "message", py "File already processed")],
     log CallScroll (snd (upload_file f1 w))).
Proof.
  intros H1 H2 Hh Hfit.
  apply (upload_duplicate_skipped f2 _ H2 Hh).
  rewrite firstn_all2 by exact Hfit.
  apply (upload_leaves_hash f1 w H1 Hh).
Qed.

(** C1: after ten other documents are stored, a document uploaded twice
    under two names is processed twice. The scroll returns one page of
    ten points; the points of the first upload are not on it, so the
    second upload is chunked, embedded and stored again. *)
Theorem duplicate_upload_stored_twice :
  let w10 := upload_all ten_documents empty_world in
  let first := upload_file report w10 in
  let second := upload_file report_copy (snd first) in
  extract_text report = Ok (py "Hello world.") /\
  extract_text report_copy = Ok (py "Hello world.") /\
  length (points w10) = 10%nat /\
  fst first
  = Ok [(py "message", py "File processed and 1 chunks stored.")] /\
  fst second
  = Ok [(py "message", py "File processed and 1 chunks stored.")] /\
  map payload (skipn 10 (points (snd second)))
  = [[(py "text", py "Hello world..");
      (py "file_hash", py "764569e58f53ea8b6404f6fa7fc0247f")];
     [(py "text", py "Hello world..");
      (py "file_hash", py "764569e58f53ea8b6404f6fa7fc0247f")]] /\
  skipn (length (calls (snd first))) (calls (snd second))
  = [CallScroll; CallEncode [py "Hello world.."];
     CallUpsert [0x1000000000004000800000000000000b%N]].
Proof. vm_compute. repeat split; reflexivity. Qed.

(** With nine other documents the same second upload is skipped. *)
Lemma duplicate_upload_skipped_with_nine :
  let w9 := upload_all (tl ten_documents) empty_world in
  let first := upload_file report w9 in
  let second := upload_file report_copy (snd first) in
  fst second = Ok [(py "message", py "File already processed")] /\
  points (snd second) = points (snd first).
Proof. vm_compute. split; reflexivity. Qed.

End DedupFacts.

(* ================================================================== *)
(** * The hypotheses of the properties can be met *)
(* ================================================================== *)

Lemma ask_empty_collection_witness :
  points (@empty_world stub) = [] /\
  @ask stub (py "What is this?") empty_world =
    (Ok [(py "answer", py "No relevant context found."); (py "context", [])],
     log (CallSearch 3) (log (CallEncode [py "What is this?"]) empty_world)).
Proof.
  split; [reflexivity|].
  apply (@ask_empty_collection stub (py "What is this?") empty_world).
  reflexivity.
Defined.

Lemma ask_context_from_top3_witness :
  points (@four_document_world stub_online) <> [] /\
  (exists hits : list ScoredPoint,
      fst (@qdrant_search stub_online
             (embedder_encode (py "Capital of France?")) 3
             four_document_world) = Ok hits /\
      map (fun h => (dict_get_default (hit_payload h) (py "text") [],
                     score h)) hits
      = [(py "A much longer document.", 415 # 1);
         (py "Hello world..", 235 # 1);
         (py "Medium text.", 217 # 1)]) /\
  fst (@ask stub_online (py "Capital of France?") four_document_world)
  = Ok [(py "answer", py "Paris.");
        (py "context",
         py "A much longer document." ++ [NEWLINE] ++ py "Hello world.."
         ++ [NEWLINE] ++ py "Medium text.")].
Proof.
  assert (Hw : points (@four_document_world stub_online) <> [])
    by (vm_compute; discriminate).
  split; [exact Hw|].
  destruct (@ask_context_from_top3 stub_online (py "Capital of France?")
              four_document_world Hw)
    as (hits & Hs & _ & _ & _ & _ & _ & _ & context & Hctx & Hask).
  assert (Hhits : map (fun h => (dict_get_default (hit_payload h)
                                                  (py "text") [],
                                 score h)) hits
                  = [(py "A much longer document.", 415 # 1);
                     (py "Hello world..", 235 # 1);
                     (py "Medium text.", 217 # 1)]).
  { vm_compute in Hs. injection Hs as <-. vm_compute. reflexivity. }
  split; [exists hits; split; [exact Hs|exact Hhits]|].
  rewrite Hask, Hctx.
  replace (map (fun h => dict_get_default (hit_payload h) (py "text") []) hits)
    with (map fst (map (fun h => (dict_get_default (hit_payload h)
                                                   (py "text") [],
                                  score h)) hits))
    by (rewrite map_map; reflexivity).
  rewrite Hhits. vm_compute. reflexivity.
Defined.

Lemma upload_unsupported_format_witness :
  endswith (py "table.csv") (py ".txt") = false /\
  endswith (py "table.csv") (py ".pdf") = false /\
  @upload_file stub (text_file (py "table.csv") "a,b") empty_world =
    (Raise (HTTPException 400 (py "Only PDF or TXT supported")), empty_world).
Proof.
  split; [reflexivity|]. split; [reflexivity|].
  apply (@upload_unsupported_format stub
           (text_file (py "table.csv") "a,b") empty_world);
    reflexivity.
Defined.

Lemma ask_chat_failure_surfaced_witness :
  (points (@one_document_world stub) <> [] /\
   fst (@ask stub (py "Hello?") one_document_world) =
     Ok [(py "answer", py "Error: 503 - Service Unavailable");
         (py "context", py "Hello world..")]) /\
  (points (@one_document_world stub_offline) <> [] /\
   fst (@ask stub_offline (py "Hello?") one_document_world) =
     Raise RequestException).
Proof.
  assert (Hw : points (@one_document_world stub) <> [])
    by (vm_compute; discriminate).
  assert (Hw' : points (@one_document_world stub_offline) <> [])
    by (vm_compute; discriminate).
  split; (split; [assumption|]).
  - destruct (@ask_chat_failure_surfaced stub (py "Hello?")
                one_document_world Hw) as [Hresp _].
    rewrite (Hresp {| status_code := 503;
                      text := py "Service Unavailable" |}
                   eq_refl eq_refl).
    vm_compute. reflexivity.
  - destruct (@ask_chat_failure_surfaced stub_offline (py "Hello?")
                one_document_world Hw') as [_ Hexn].
    rewrite (Hexn RequestException eq_refl). reflexivity.
Defined.

(* ================================================================== *)
(** * Further properties of the Chunker *)
(* ================================================================== *)

Section ChunkerExtras.

Variable max_len : Z.

Lemma chunk_loop_count (ss : list str) : forall st,
  (length (fst (chunk_loop max_len ss st)) <= length (fst st) + length ss)%nat.
Proof.
  induction ss as [|s ss IH]; intros [chunks cur]; simpl; [lia|].
  eapply Nat.le_trans; [apply IH|].
  unfold chunk_step. destruct (len cur + len s <? max_len)%Z; simpl.
  - lia.
  - rewrite length_app. simpl. lia.
Qed.

(** X1: [chunk_text] returns at least one chunk and at most one more
    than the number of fragments of the text. *)
Theorem chunk_text_count_bounds (txt : str) :
  (1 <= length (chunk_text txt max_len) <= length (split txt DOT) + 1)%nat.
Proof.
  split.
  - pose proof (chunk_text_not_nil max_len txt) as H.
    destruct (chunk_text txt max_len); [congruence|simpl; lia].
  - unfold chunk_text.
    match goal with
    | |- context [chunk_loop ?m ?ss ?st] =>
        pose proof (chunk_loop_count ss st) as H; revert H;
        destruct (chunk_loop m ss st) as [chunks cur]
    end.
    simpl. intros H. destruct (truthy cur); [rewrite length_app; simpl|]; lia.
Qed.

Lemma chunk_loop_terminated (ss : list str) : forall st,
  Forall (fun c => c = [] \/ terminated c) (fst st) ->
  (snd st = [] \/ terminated (snd st)) ->
  let st' := chunk_loop max_len ss st in
  Forall (fun c => c = [] \/ terminated c) (fst st') /\
  (snd st' = [] \/ terminated (snd st')).
Proof.
  induction ss as [|s ss IH]; intros [chunks cur] Hch Hcur; simpl.
  - auto.
  - apply IH; unfold chunk_step; simpl in *;
      destruct (len cur + len s <? max_len)%Z; simpl.
    + exact Hch.
    + apply Forall_app. split; [exact Hch|]. constructor; [|constructor].
      destruct Hcur as [->|[x ->]]; [left; reflexivity|].
      right. exists (lstrip x). apply strip_dot_end.
    + right. exists (cur ++ s). rewrite <- app_assoc. reflexivity.
    + right. exists s. reflexivity.
Qed.

(** X2: every chunk ends with the terminator ['.'], except that the
    first chunk can be the empty string. *)
Theorem chunk_text_chunks_terminated (txt : str) :
  Forall (fun c => c = [] \/ terminated c) (chunk_text txt max_len) /\
  Forall terminated (tl (chunk_text txt max_len)).
Proof.
  assert (H1 : Forall (fun c => c = [] \/ terminated c)
                      (chunk_text txt max_len)).
  { unfold chunk_text.
    match goal with
    | |- context [chunk_loop ?m ?ss ?st] =>
        pose proof (@chunk_loop_terminated ss st (Forall_nil _)
                      (or_introl eq_refl)) as H;
        cbv zeta in H; revert H;
        destruct (chunk_loop m ss st) as [chunks cur]
    end.
    simpl. intros [Hch Hcur]. destruct (truthy cur); [|exact Hch].
    apply Forall_app. split; [exact Hch|]. constructor; [|constructor].
    destruct Hcur as [->|[x ->]]; [left; reflexivity|].
    right. exists (lstrip x). apply strip_dot_end. }
  split; [exact H1|].
  pose proof (chunk_text_tail_nonempty txt max_len) as H2.
  destruct (chunk_text txt max_len) as [|c0 cs]; [constructor|].
  simpl in *. inversion H1 as [|? ? _ Hcs]; subst.
  rewrite Forall_forall in *. intros c Hc.
  destruct (Hcs c Hc) as [->|Ht]; [|exact Ht].
  exfalso. exact (H2 [] Hc eq_refl).
Qed.

Lemma lstrip_head (s : str) (a : char) :
  hd_error (lstrip s) = Some a -> isspace a = false.
Proof.
  induction s as [|c r IH]; simpl; [discriminate|].
  destruct (isspace c) eqn:Hc; [exact IH|].
  simpl. intros [= <-]. exact Hc.
Qed.

Lemma lstrip_keeps_last (x : str) (a : char) :
  isspace a = false -> lstrip (x ++ [a]) = lstrip x ++ [a].
Proof.
  intros Ha. induction x as [|c r IH]; simpl.
  - rewrite Ha. reflexivity.
  - destruct (isspace c); [exact IH|reflexivity].
Qed.

Lemma strip_trimmed (s : str) : trimmed (strip s).
Proof.
  unfold strip, rstrip, trimmed. split.
  - intros a Ha.
    destruct (lstrip s) as [|c r] eqn:Hl; [discriminate|].
    assert (Hc : isspace c = false)
      by (apply (lstrip_head s); rewrite Hl; reflexivity).
    simpl rev in Ha. rewrite (@lstrip_keeps_last (rev r) c Hc) in Ha.
    rewrite rev_app_distr in Ha. simpl in Ha. congruence.
  - intros z Hz. rewrite rev_involutive in Hz.
    exact (lstrip_head _ Hz).
Qed.

Lemma chunk_loop_stripped (ss : list str) : forall st,
  Forall trimmed (fst st) -> Forall trimmed (fst (chunk_loop max_len ss st)).
Proof.
  induction ss as [|s ss IH]; intros [chunks cur] H; simpl; [exact H|].
  apply IH. unfold chunk_step.
  destruct (len cur + len s <? max_len)%Z; simpl; [exact H|].
  apply Forall_app. split; [exact H|].
  constructor; [apply strip_trimmed|constructor].
Qed.

(** X3: no chunk starts or ends with a whitespace character. *)
Theorem chunk_text_chunks_trimmed (txt : str) :
  Forall trimmed (chunk_text txt max_len).
Proof.
  unfold chunk_text.
  match goal with
  | |- context [chunk_loop ?m ?ss ?st] =>
      pose proof (@chunk_loop_stripped ss st (Forall_nil _)) as H; revert H;
      destruct (chunk_loop m ss st) as [chunks cur]
  end.
  simpl. intros H. destruct (truthy cur); [|exact H].
  apply Forall_app. split; [exact H|].
  constructor; [apply strip_trimmed|constructor].
Qed.

(** Putting the terminators back after the fragments of a text spells
    the text followed by one terminator. *)
Lemma dotted_split (txt : str) : dotted (split txt DOT) = txt ++ [DOT].
Proof.
  induction txt as [|c r IH]; simpl; [reflexivity|].
  destruct (N.eqb_spec c DOT) as [->|Hne].
  - rewrite dotted_cons, IH. reflexivity.
  - destruct (split r DOT) as [|p ps] eqn:Hs.
    + exfalso. exact (split_not_nil r DOT Hs).
    + rewrite dotted_cons. rewrite dotted_cons in IH.
      simpl. rewrite IH. reflexivity.
Qed.

Lemma len_dotted_cons (s : str) (ss : list str) :
  len (dotted (s :: ss)) = (len s + 1 + len (dotted ss))%Z.
Proof.
  rewrite dotted_cons, len_app. unfold len. simpl length. lia.
Qed.

Lemma chunk_loop_fits (ss : list str) : forall cur,
  (len cur + len (dotted ss) <= max_len)%Z ->
  chunk_loop max_len ss ([], cur) = ([], cur ++ dotted ss).
Proof.
  induction ss as [|s ss IH]; intros cur Hfit.
  - simpl. unfold dotted. simpl. rewrite app_nil_r. reflexivity.
  - rewrite len_dotted_cons in Hfit.
    assert (Hnn : (0 <= len (dotted ss))%Z) by (unfold len; lia).
    change (chunk_loop max_len (s :: ss) ([], cur))
      with (chunk_loop max_len ss (chunk_step max_len ([], cur) s)).
    assert (Hstep : chunk_step max_len ([], cur) s = ([], cur ++ s ++ [DOT])).
    { unfold chunk_step.
      replace (len cur + len s <? max_len)%Z with true
        by (symmetry; apply Z.ltb_lt; lia).
      reflexivity. }
    rewrite Hstep, IH.
    + rewrite dotted_cons, <- !app_assoc. reflexivity.
    + rewrite !len_app. unfold len at 3. simpl length. lia.
Qed.

Lemma nonspace_app (a b : str) : nonspace (a ++ b) = nonspace a ++ nonspace b.
Proof. apply filter_app. Qed.

Lemma nonspace_lstrip (s : str) : nonspace (lstrip s) = nonspace s.
Proof.
  induction s as [|c r IH]; simpl; [reflexivity|].
  destruct (isspace c) eqn:Hc; simpl; [exact IH|].
  rewrite Hc. reflexivity.
Qed.

Lemma nonspace_dotted (gs fs : list str) :
  Forall2 trimmed_of gs fs -> nonspace (dotted gs) = nonspace (dotted fs).
Proof.
  induction 1 as [|g f gs fs Hgf _ IH]; [reflexivity|].
  rewrite !dotted_cons, !nonspace_app. simpl. rewrite IH.
  destruct Hgf as [->| ->]; [reflexivity|].
  rewrite nonspace_lstrip. reflexivity.
Qed.

End ChunkerExtras.

(** X4: a text shorter than [max_len] is kept whole: the only chunk is
    the text followed by one terminator, trimmed. *)
Theorem chunk_text_short_text_one_chunk (txt : str) (max_len : Z) :
  (len txt < max_len)%Z ->
  chunk_text txt max_len = [strip (txt ++ [DOT])].
Proof.
  intros Hlen. unfold chunk_text.
  rewrite chunk_loop_fits.
  - simpl app. rewrite dotted_split.
    destruct txt; reflexivity.
  - rewrite dotted_split, len_app. unfold len. simpl length.
    unfold len in Hlen. lia.
Qed.

Lemma chunk_text_short_text_one_chunk_witness :
  (len (py "A. B. C.") < DEFAULT_MAX_LEN)%Z /\
  chunk_text (py "A. B. C.") DEFAULT_MAX_LEN = [py "A. B. C.."].
Proof.
  split; [reflexivity|].
  rewrite (@chunk_text_short_text_one_chunk (py "A. B. C.") DEFAULT_MAX_LEN);
    reflexivity.
Defined.

(** X5: chunking loses, adds and reorders nothing but whitespace and one
    final terminator: the non-whitespace characters of the chunks, read
    in order, are those of the text followed by ['.']. *)
Theorem chunk_text_keeps_nonspace (txt : str) (max_len : Z) :
  nonspace (concat (chunk_text txt max_len)) = nonspace txt ++ [DOT].
Proof.
  destruct (chunk_text_spells max_len txt) as (gs & Hc & Hr).
  rewrite Hc, (nonspace_dotted Hr), dotted_split, nonspace_app.
  reflexivity.
Qed.

(* ================================================================== *)
(** * Properties of the content hash and of text extraction *)
(* ================================================================== *)

Section HashFacts.

#[local] Ltac Zify.zify_post_hook ::= Z.to_euclidean_division_equations.

Lemma byte_of_to_N (b : Byte.byte) : Utf8.byte_of (Byte.to_N b) = b.
Proof. unfold Utf8.byte_of. rewrite Byte.of_to_N. reflexivity. Qed.

Lemma continuation_spec (b : Byte.byte) (c : N) :
  Utf8.continuation b = Some c ->
  (c < 64 /\ Byte.to_N b = 0x80 + c)%N.
Proof.
  unfold Utf8.continuation.
  destruct (N.leb_spec 0x80 (Byte.to_N b));
    destruct (N.leb_spec (Byte.to_N b) 0xBF); cbn [andb]; try discriminate.
  intros [= <-]. lia.
Qed.

Lemma encode_char_1 (b0 : Byte.byte) :
  (Byte.to_N b0 < 0x80)%N ->
  Utf8.encode_char (Byte.to_N b0) = Some [b0].
Proof.
  intros H. unfold Utf8.encode_char.
  destruct (N.ltb_spec (Byte.to_N b0) 0x80); [|lia].
  rewrite byte_of_to_N. reflexivity.
Qed.

Lemma encode_char_2 (b0 b1 : Byte.byte) (c1 : N) :
  (0xC2 <= Byte.to_N b0 < 0xE0)%N ->
  Utf8.continuation b1 = Some c1 ->
  Utf8.encode_char ((Byte.to_N b0 - 0xC0) * 64 + c1)%N = Some [b0; b1].
Proof.
  intros H0 H1. apply continuation_spec in H1. destruct H1 as [Hc1 Hb1].
  set (n0 := Byte.to_N b0) in *. set (c := ((n0 - 0xC0) * 64 + c1)%N).
  unfold Utf8.encode_char. fold c.
  destruct (N.ltb_spec c 0x80); [subst c; lia|].
  destruct (N.ltb_spec c 0x800); [|subst c; lia].
  replace (0xC0 + c / 64)%N with n0 by (subst c; lia).
  replace (0x80 + c mod 64)%N with (Byte.to_N b1) by (subst c; lia).
  subst n0. rewrite !byte_of_to_N. reflexivity.
Qed.

Lemma encode_char_3 (b0 b1 b2 : Byte.byte) (c1 c2 : N) :
  (0xE0 <= Byte.to_N b0 < 0xF0)%N ->
  Utf8.continuation b1 = Some c1 ->
  Utf8.continuation b2 = Some c2 ->
  let c := ((Byte.to_N b0 - 0xE0) * 4096 + c1 * 64 + c2)%N in
  ((c <? 0x800) || ((0xD800 <=? c) && (c <=? 0xDFFF)))%N = false ->
  Utf8.encode_char c = Some [b0; b1; b2].
Proof.
  intros H0 H1 H2 c Hok.
  apply continuation_spec in H1. destruct H1 as [Hc1 Hb1].
  apply continuation_spec in H2. destruct H2 as [Hc2 Hb2].
  apply orb_false_iff in Hok. destruct Hok as [Hlow Hsur].
  apply N.ltb_ge in Hlow.
  set (n0 := Byte.to_N b0) in *.
  unfold Utf8.encode_char. rewrite Hsur.
  destruct (N.ltb_spec c 0x80); [lia|].
  destruct (N.ltb_spec c 0x800); [lia|].
  destruct (N.ltb_spec c 0x10000); [|subst c; lia].
  replace (0xE0 + c / 4096)%N with n0 by (subst c; lia).
  replace (0x80 + (c / 64) mod 64)%N with (Byte.to_N b1) by (subst c; lia).
  replace (0x80 + c mod 64)%N with (Byte.to_N b2) by (subst c; lia).
  subst n0. rewrite !byte_of_to_N. reflexivity.
Qed.

Lemma encode_char_4 (b0 b1 b2 b3 : Byte.byte) (c1 c2 c3 : N) :
  (0xF0 <= Byte.to_N b0 < 0xF5)%N ->
  Utf8.continuation b1 = Some c1 ->
  Utf8.continuation b2 = Some c2 ->
  Utf8.continuation b3 = Some c3 ->
  let c := ((Byte.to_N b0 - 0xF0) * 262144 + c1 * 4096 + c2 * 64 + c3)%N in
  ((c <? 0x10000) || (0x10FFFF <? c))%N = false ->
  Utf8.encode_char c = Some [b0; b1; b2; b3].
Proof.
  intros H0 H1 H2 H3 c Hok.
  apply continuation_spec in H1. destruct H1 as [Hc1 Hb1].
  apply continuation_spec in H2. destruct H2 as [Hc2 Hb2].
  apply continuation_spec in H3. destruct H3 as [Hc3 Hb3].
  apply orb_false_iff in Hok. destruct Hok as [Hlow Hhigh].
  apply N.ltb_ge in Hlow. apply N.ltb_ge in Hhigh.
  set (n0 := Byte.to_N b0) in *.
  unfold Utf8.encode_char.
  destruct (N.ltb_spec c 0x80); [lia|].
  destruct (N.ltb_spec c 0x800); [lia|].
  destruct (N.ltb_spec c 0x10000); [lia|].
  destruct (N.ltb_spec c 0x110000); [|lia].
  replace (0xF0 + c / 262144)%N with n0 by (subst c; lia).
  replace (0x80 + (c / 4096) mod 64)%N with (Byte.to_N b1) by (subst c; lia).
  replace (0x80 + (c / 64) mod 64)%N with (Byte.to_N b2) by (subst c; lia).
  replace (0x80 + c mod 64)%N with (Byte.to_N b3) by (subst c; lia).
  subst n0. rewrite !byte_of_to_N. reflexivity.
Qed.

Lemma option_map_cons_some (c : char) (o : option str) (s : str) :
  option_map (cons c) o = Some s -> exists s', o = Some s' /\ s = c :: s'.
Proof.
  destruct o as [s'|]; simpl; [|discriminate].
  intros [= <-]. exists s'. split; reflexivity.
Qed.

Lemma encode_cons (c : char) (s : str) (bs rest : Utf8.bytes) :
  Utf8.encode_char c = Some bs -> Utf8.encode s = Some rest ->
  Utf8.encode (c :: s) = Some (bs ++ rest).
Proof. intros Hc Hs. simpl. rewrite Hc, Hs. reflexivity. Qed.

(** Strictly decoded text encodes back to the bytes it came from. *)
Lemma decode_encode_bounded (n : nat) : forall (l : Utf8.bytes) (s : str),
  (length l <= n)%nat -> Utf8.decode l = Some s -> Utf8.encode s = Some l.
Proof.
  induction n as [|n IH]; intros l s Hlen Hd.
  - destruct l; [|simpl in Hlen; lia]. simpl in Hd.
    injection Hd as <-. reflexivity.
  - destruct l as [|b0 r]; [simpl in Hd; injection Hd as <-; reflexivity|].
    simpl in Hlen. cbn [Utf8.decode] in Hd. cbv zeta in Hd.
    destruct (N.ltb_spec (Byte.to_N b0) 0x80) as [H80|H80].
    { apply option_map_cons_some in Hd. destruct Hd as (s' & Hr & ->).
      apply (@encode_cons _ _ [b0] r); [apply encode_char_1; exact H80|].
      apply IH; [lia|exact Hr]. }
    destruct (N.ltb_spec (Byte.to_N b0) 0xC2) as [HC2|HC2]; [discriminate|].
    destruct (N.ltb_spec (Byte.to_N b0) 0xE0) as [HE0|HE0].
    { destruct r as [|b1 r1]; [discriminate|].
      destruct (Utf8.continuation b1) as [c1|] eqn:H1; [|discriminate].
      apply option_map_cons_some in Hd. destruct Hd as (s' & Hr & ->).
      apply (@encode_cons _ _ [b0; b1] r1).
      - apply encode_char_2; [lia|exact H1].
      - apply IH; [simpl in Hlen; lia|exact Hr]. }
    destruct (N.ltb_spec (Byte.to_N b0) 0xF0) as [HF0|HF0].
    { destruct r as [|b1 [|b2 r2]]; try discriminate.
      destruct (Utf8.continuation b1) as [c1|] eqn:H1; [|discriminate].
      destruct (Utf8.continuation b2) as [c2|] eqn:H2; [|discriminate].
      match type of Hd with
      | (if ?cond then _ else _) = _ => destruct cond eqn:Hok
      end; [discriminate|].
      apply option_map_cons_some in Hd. destruct Hd as (s' & Hr & ->).
      apply (@encode_cons _ _ [b0; b1; b2] r2).
      - apply encode_char_3; [lia|exact H1|exact H2|exact Hok].
      - apply IH; [simpl in Hlen; lia|exact Hr]. }
    destruct (N.ltb_spec (Byte.to_N b0) 0xF5) as [HF5|HF5]; [|discriminate].
    destruct r as [|b1 [|b2 [|b3 r3]]]; try discriminate.
    destruct (Utf8.continuation b1) as [c1|] eqn:H1; [|discriminate].
    destruct (Utf8.continuation b2) as [c2|] eqn:H2; [|discriminate].
    destruct (Utf8.continuation b3) as [c3|] eqn:H3; [|discriminate].
    match type of Hd with
    | (if ?cond then _ else _) = _ => destruct cond eqn:Hok
    end; [discriminate|].
    apply option_map_cons_some in Hd. destruct Hd as (s' & Hr & ->).
    apply (@encode_cons _ _ [b0; b1; b2; b3] r3).
    + apply encode_char_4; [lia|exact H1|exact H2|exact H3|exact Hok].
    + apply IH; [simpl in Hlen; lia|exact Hr].
Qed.

Lemma decode_encode (l : Utf8.bytes) (s : str) :
  Utf8.decode l = Some s -> Utf8.encode s = Some l.
Proof. apply (@decode_encode_bounded (length l)). apply Nat.le_refl. Qed.

Lemma le_bytes_length (k : nat) (n : Z) : length (MD5.le_bytes k n) = k.
Proof.
  revert n. induction k as [|k IH]; intros n; simpl; [reflexivity|].
  rewrite IH. reflexivity.
Qed.

Lemma le_bytes_range (k : nat) (n : Z) :
  Forall (fun b => 0 <= b < 256)%Z (MD5.le_bytes k n).
Proof.
  revert n. induction k as [|k IH]; intros n; simpl; constructor.
  - apply Z.mod_pos_bound. lia.
  - apply IH.
Qed.

Lemma hex_digit_is_hex (d : Z) :
  (0 <= d < 16)%Z -> is_hex_digit (MD5.hex_digit d).
Proof.
  intros Hd. unfold MD5.hex_digit, is_hex_digit.
  destruct (Z.ltb_spec d 10); lia.
Qed.

Lemma digest_shape (data : Utf8.bytes) :
  length (MD5.digest data) = 16%nat /\
  Forall (fun b => 0 <= b < 256)%Z (MD5.digest data).
Proof.
  unfold MD5.digest.
  destruct (MD5.blocks _ _ _) as [[[A B] C] D].
  split.
  - rewrite !length_app, !le_bytes_length. reflexivity.
  - repeat (apply Forall_app; split); apply le_bytes_range.
Qed.

Lemma hex_of_bytes_shape (bs : list Z) :
  Forall (fun b => 0 <= b < 256)%Z bs ->
  let hex := flat_map (fun b => [MD5.hex_digit (b / 16);
                                 MD5.hex_digit (b mod 16)]) bs in
  length hex = (2 * length bs)%nat /\ Forall is_hex_digit hex.
Proof.
  induction 1 as [|b bs Hb _ [IH1 IH2]]; simpl.
  - split; [reflexivity|constructor].
  - split; [rewrite IH1; lia|].
    constructor; [|constructor; [|exact IH2]];
      apply hex_digit_is_hex; lia.
Qed.

Lemma hexdigest_shape (data : Utf8.bytes) :
  length (MD5.hexdigest data) = 32%nat /\
  Forall is_hex_digit (MD5.hexdigest data).
Proof.
  destruct (digest_shape data) as [Hlen Hrange].
  destruct (hex_of_bytes_shape Hrange) as [H1 H2].
  unfold MD5.hexdigest. split; [rewrite H1, Hlen; reflexivity|exact H2].
Qed.

End HashFacts.

Section ExtractionFacts.

Context {E : Externals}.

(** X6: [compute_hash] returns 32 lower-case hexadecimal digits, and
    the only way it fails is a text that UTF-8 cannot encode. *)
Theorem compute_hash_shape (content : str) :
  match compute_hash content with
  | Ok h => length h = 32%nat /\ Forall is_hex_digit h
  | Raise e => e = UnicodeEncodeError
  end.
Proof.
  unfold compute_hash.
  destruct (Utf8.encode content) as [data|]; [|reflexivity].
  apply hexdigest_shape.
Qed.

(** X7: for a [.txt] upload the content hash is the MD5 digest of the
    bytes of the file: whenever the text is extracted, hashing it cannot
    fail and gives the digest of the raw upload. *)
Theorem txt_hash_is_digest_of_file (f : UploadFile) (txt : str) :
  endswith (filename f) (py ".txt") = true ->
  extract_text f = Ok txt ->
  compute_hash txt = Ok (MD5.hexdigest (file f)).
Proof.
  intros Hname Hx. unfold extract_text in Hx. rewrite Hname in Hx.
  destruct (Utf8.decode (file f)) as [s|] eqn:Hd; [|discriminate].
  injection Hx as ->.
  unfold compute_hash. rewrite (decode_encode _ Hd). reflexivity.
Qed.

Lemma concat_pages_all_text (pages : list str) : forall acc,
  concat_pages acc (map Some pages)
  = Ok (acc ++ concat (map (fun p => p ++ [NEWLINE]) pages)).
Proof.
  induction pages as [|p ps IH]; intros acc; simpl.
  - rewrite app_nil_r. reflexivity.
  - rewrite IH, <- !app_assoc. reflexivity.
Qed.

Lemma concat_pages_missing_text (pages : list (option str)) : forall acc,
  In None pages -> concat_pages acc pages = Raise TypeError.
Proof.
  induction pages as [|[p|] ps IH]; intros acc Hin; simpl.
  - destruct Hin.
  - apply IH. destruct Hin as [H|H]; [discriminate|exact H].
  - reflexivity.
Qed.

(** X8: the text of a PDF is the text of its pages in order, each one
    followed by a newline (the last one too); a single page without
    text makes the extraction fail with a [TypeError]. *)
Theorem extract_text_pdf_pages (name ctype : str) (body : Utf8.bytes) :
  let f := {| filename := name ++ py ".pdf"; content_type := ctype;
              file := body |} in
  (forall pages : list str,
      pdfplumber_pages body = Ok (map Some pages) ->
      extract_text f = Ok (concat (map (fun p => p ++ [NEWLINE]) pages))) /\
  (forall pages : list (option str),
      pdfplumber_pages body = Ok pages -> In None pages ->
      extract_text f = Raise TypeError).
Proof.
  intros f.
  assert (Hx : extract_text f =
               match pdfplumber_pages body with
               | Ok pages => concat_pages [] pages
               | Raise e => Raise e
               end).
  { unfold extract_text, f. simpl filename. simpl file.
    replace (endswith (name ++ py ".pdf") (py ".txt")) with false
      by (symmetry;
          apply (@endswith_other name 102%N 116%N (py ".pd") (py ".tx"));
          discriminate).
    rewrite (endswith_app name (py ".pdf")). reflexivity. }
  split.
  - intros pages Hp. rewrite Hx, Hp. apply (concat_pages_all_text pages []).
  - intros pages Hp Hin. rewrite Hx, Hp.
    apply concat_pages_missing_text. exact Hin.
Qed.

End ExtractionFacts.

(* ================================================================== *)
(** * Further properties of [upload_file] and [ask] *)
(* ================================================================== *)

Section EndpointExtras.

Context {E : Externals}.

Lemma after_draws_succ (n : nat) (w : World) :
  after_draws n
    {| points := points w; uuid_src := uuid_src w;
       uuid_drawn := S (uuid_drawn w); calls := calls w |}
  = after_draws (S n) w.
Proof. unfold after_draws. simpl. f_equal. lia. Qed.

Lemma build_points_eq (h : str) (items : list (str * vector)) : forall w,
  build_points h items w =
    (Ok (new_points h (uuid_src w) (uuid_drawn w) items),
     after_draws (length items) w).
Proof.
  induction items as [|[chunk embedding] rest IH]; intros w.
  - simpl. unfold ret, after_draws. destruct w; simpl.
    rewrite Nat.add_0_r. reflexivity.
  - cbn [build_points new_points length]. unfold bind at 1, uuid4 at 1.
    unfold bind. rewrite IH. unfold ret.
    cbn [uuid_src uuid_drawn]. rewrite after_draws_succ. reflexivity.
Qed.

(** The whole effect of an upload whose hash is not on the scrolled
    page. *)
Lemma upload_file_processed (f : UploadFile) (w : World) (txt h : str) :
  extract_text f = Ok txt ->
  compute_hash txt = Ok h ->
  has_hash h (firstn SCROLL_DEFAULT_LIMIT (points w)) = false ->
  let chunks := chunk_text txt DEFAULT_MAX_LEN in
  let ps := new_points h (uuid_src w) (uuid_drawn w)
                       (combine chunks (map embedder_encode chunks)) in
  upload_file f w =
    (Ok [(py "message",
          py "File processed and " ++ str_of_int (Z.of_nat (length chunks))
          ++ py " chunks stored.")],
     {| points := fold_left (fun c p => upsert_point p c) ps (points w);
        uuid_src := uuid_src w;
        uuid_drawn := uuid_drawn w + length chunks;
        calls := calls w ++ [CallScroll; CallEncode chunks;
                             CallUpsert (map id ps)] |}).
Proof.
  intros Hx Hh Hmiss chunks ps.
  unfold upload_file, bind, lift. rewrite Hx. unfold ret at 1.
  rewrite Hh. unfold ret at 1. unfold qdrant_scroll.
  cbn [fst]. rewrite Hmiss.
  unfold embedder_encode_list. fold chunks.
  rewrite build_points_eq.
  unfold qdrant_upsert, ret, log, set_points, after_draws.
  cbn [points uuid_src uuid_drawn calls]. fold ps.
  rewrite length_combine, length_map, Nat.min_id, <- !app_assoc.
  reflexivity.
Qed.

Lemma upsert_fresh_perm (p : PointStruct) (coll : list PointStruct) :
  ~ In (id p) (map id coll) -> Permutation (upsert_point p coll) (p :: coll).
Proof.
  induction coll as [|q r IH]; simpl; intros Hfresh; [apply Permutation_refl|].
  destruct (id p <? id q)%N; [apply Permutation_refl|].
  destruct (N.eqb_spec (id p) (id q)) as [Heq|Hne].
  - exfalso. apply Hfresh. left. symmetry. exact Heq.
  - eapply Permutation_trans; [|apply perm_swap].
    apply perm_skip. apply IH. intros H. apply Hfresh. right. exact H.
Qed.

Lemma fold_upsert_fresh_perm (ps : list PointStruct) : forall coll,
  NoDup (map id ps) ->
  (forall p, In p ps -> ~ In (id p) (map id coll)) ->
  Permutation (fold_left (fun c p => upsert_point p c) ps coll) (ps ++ coll).
Proof.
  induction ps as [|p ps IH]; intros coll Hnd Hfresh; simpl;
    [apply Permutation_refl|].
  inversion Hnd as [|? ? Hp Hnd']; subst.
  assert (H1 : Permutation (upsert_point p coll) (p :: coll))
    by (apply upsert_fresh_perm; apply Hfresh; left; reflexivity).
  eapply Permutation_trans.
  - apply IH; [exact Hnd'|]. intros x Hx Hin.
    apply (Permutation_in _ (Permutation_map id H1)) in Hin.
    destruct Hin as [Heq|Hin].
    + apply Hp. rewrite Heq. apply in_map. exact Hx.
    + apply (Hfresh x); [right; exact Hx|exact Hin].
  - eapply Permutation_trans;
      [apply Permutation_app_head; exact H1|].
    apply Permutation_sym. apply Permutation_middle.
Qed.

Lemma new_points_payload (h : str) (src : nat -> N) (chunks : list str) :
  forall k,
  map payload (new_points h src k (combine chunks (map embedder_encode chunks)))
  = map (fun c => [(py "text", c); (py "file_hash", h)]) chunks.
Proof.
  induction chunks as [|c cs IH]; intros k; simpl; [reflexivity|].
  rewrite IH. reflexivity.
Qed.

(** X9: when the hash is not on the scrolled page and the UUIDs drawn
    are new and distinct, the collection afterwards is the collection
    before plus one point per chunk, carrying the chunk text, its
    embedding and the hash of the document; the embedder is called once
    with all the chunks and the store once with all the points, and the
    message reports the number of chunks. *)
Theorem upload_adds_one_point_per_chunk
  (f : UploadFile) (w : World) (txt h : str) :
  let chunks := chunk_text txt DEFAULT_MAX_LEN in
  let ps := new_points h (uuid_src w) (uuid_drawn w)
                       (combine chunks (map embedder_encode chunks)) in
  extract_text f = Ok txt ->
  compute_hash txt = Ok h ->
  has_hash h (firstn SCROLL_DEFAULT_LIMIT (points w)) = false ->
  NoDup (map id ps) ->
  (forall p, In p ps -> ~ In (id p) (map id (points w))) ->
  fst (upload_file f w) =
    Ok [(py "message",
         py "File processed and " ++ str_of_int (Z.of_nat (length chunks))
         ++ py " chunks stored.")] /\
  Permutation (points (snd (upload_file f w))) (ps ++ points w) /\
  map payload ps =
    map (fun c => [(py "text", c); (py "file_hash", h)]) chunks /\
  calls (snd (upload_file f w)) =
    calls w ++ [CallScroll; CallEncode chunks; CallUpsert (map id ps)].
Proof.
  intros chunks ps Hx Hh Hmiss Hnd Hfresh.
  rewrite (upload_file_processed f w Hx Hh Hmiss).
  fold chunks. fold ps. cbn [fst snd points calls].
  split; [reflexivity|].
  split; [apply fold_upsert_fresh_perm; assumption|].
  split; [apply new_points_payload|reflexivity].
Qed.

(** X10: when a point on the scrolled page carries the hash of the
    document, the upload answers that the file was already processed;
    nothing is chunked into the store: the collection and the UUID
    counter are as before and the scroll is the only external call. *)
Theorem upload_skip_touches_nothing
  (f : UploadFile) (w : World) (txt h : str) :
  extract_text f = Ok txt ->
  compute_hash txt = Ok h ->
  has_hash h (firstn SCROLL_DEFAULT_LIMIT (points w)) = true ->
  fst (upload_file f w) = Ok [(py "message", py "File already processed")] /\
  points (snd (upload_file f w)) = points w /\
  uuid_drawn (snd (upload_file f w)) = uuid_drawn w /\
  calls (snd (upload_file f w)) = calls w ++ [CallScroll].
Proof.
  intros Hx Hh Hfound.
  rewrite (upload_duplicate_skipped f w Hx Hh Hfound).
  repeat split.
Qed.

(** X12: [ask] only reads: whatever the question, the collection and
    the UUID counter are as before, and the external calls are one
    embedding of the question, one search for three hits and at most one
    chat completion. *)
Theorem ask_reads_only (question : str) (w : World) :
  points (snd (ask question w)) = points w /\
  uuid_drawn (snd (ask question w)) = uuid_drawn w /\
  exists chat : list Call,
    calls (snd (ask question w))
    = calls w ++ [CallEncode [question]; CallSearch 3] ++ chat /\
    (chat = [] \/ exists req, chat = [CallChat req]).
Proof.
  destruct (points w) as [|p0 ps0] eqn:Hw.
  - assert (Hask : ask question w =
      (Ok NO_CONTEXT, log (CallSearch 3) (log (CallEncode [question]) w))).
    { unfold ask, bind, embedder_encode_one, qdrant_search.
      change (points (log (CallEncode [question]) w)) with (points w).
      rewrite Hw. reflexivity. }
    rewrite Hask. cbn [snd log points uuid_drawn calls].
    repeat split; [exact Hw|].
    exists []. split; [|left; reflexivity].
    rewrite <- app_assoc. reflexivity.
  - assert (Hne : points w <> []) by (rewrite Hw; discriminate).
    rewrite (@ask_with_hits E question w Hne).
    cbn [snd log points uuid_drawn calls].
    repeat split; [exact Hw|].
    eexists. split; [|right; eexists; reflexivity].
    rewrite <- !app_assoc. reflexivity.
Qed.

(** X13: when the body of the chat response parses to an object whose
    [choices] is a list, whose first element has a [message] with a
    string [content], [ask] answers that content trimmed of surrounding
    whitespace, together with the context; the status code of the
    response and any further choice are ignored. *)
Theorem ask_relays_first_choice (question : str) (w : World)
  (resp : Response) (body choice message : list (str * Json.value))
  (others : list Json.value) (content : str) :
  let context :=
    context_of (firstn 3 (rank (map (score_point (embedder_encode question))
                                    (points w)))) in
  points w <> [] ->
  requests_post (chat_request question context) = Ok resp ->
  json_loads (text resp) = Some (Json.JObject body) ->
  Json.member body (py "choices")
  = Some (Json.JArray (Json.JObject choice :: others)) ->
  Json.member choice (py "message") = Some (Json.JObject message) ->
  Json.member message (py "content") = Some (Json.JString content) ->
  fst (ask question w) =
    Ok [(py "answer", strip content); (py "context", context)].
Proof.
  intros context Hw Hpost Hbody Hchoices Hmessage Hcontent.
  rewrite (@ask_with_hits E question w Hw).
  fold (context_of (firstn 3 (rank (map (score_point
                                           (embedder_encode question))
                                        (points w))))).
  fold context. rewrite Hpost. cbn [fst].
  unfold reply_content, and_then. rewrite Hbody. cbn [Json.getitem].
  rewrite Hchoices. cbn [Json.getitem0 Json.getitem].
  rewrite Hmessage. cbn [Json.getitem]. rewrite Hcontent.
  reflexivity.
Qed.

(** X14: upload then ask. A [.txt] file shorter than 1500 characters,
    uploaded into an empty collection, is stored as one chunk (the text
    followed by ['.'], trimmed); every question asked afterwards is sent
    to the chat endpoint with exactly that chunk as context, and the
    same context comes back in the response. *)
Theorem upload_then_ask_uses_the_document
  (f : UploadFile) (w : World) (txt question : str) :
  let chunk := strip (txt ++ [DOT]) in
  let w1 := snd (upload_file f w) in
  endswith (filename f) (py ".txt") = true ->
  Utf8.decode (file f) = Some txt ->
  (len txt < DEFAULT_MAX_LEN)%Z ->
  points w = [] ->
  fst (upload_file f w)
  = Ok [(py "message", py "File processed and 1 chunks stored.")] /\
  map payload (points w1)
  = [[(py "text", chunk); (py "file_hash", MD5.hexdigest (file f))]] /\
  fst (ask question w1) =
    match requests_post (chat_request question chunk) with
    | Ok resp =>
        Ok [(py "answer",
             match reply_content resp with
             | Some content => content
             | None => error_text resp
             end);
            (py "context", chunk)]
    | Raise e => Raise e
    end.
Proof.
  intros chunk w1 Hname Hdec Hlen Hempty.
  assert (Hx : extract_text f = Ok txt)
    by (unfold extract_text; rewrite Hname, Hdec; reflexivity).
  assert (Hh : compute_hash txt = Ok (MD5.hexdigest (file f)))
    by (unfold compute_hash; rewrite (decode_encode _ Hdec); reflexivity).
  assert (Hmiss : has_hash (MD5.hexdigest (file f))
                           (firstn SCROLL_DEFAULT_LIMIT (points w)) = false)
    by (rewrite Hempty; reflexivity).
  assert (Hchunks : chunk_text txt DEFAULT_MAX_LEN = [chunk]).
  { unfold chunk_text. rewrite chunk_loop_fits.
    - simpl app. rewrite dotted_split. destruct txt; reflexivity.
    - rewrite dotted_split, len_app. unfold len. simpl length.
      unfold len in Hlen. lia. }
  assert (Hup := upload_file_processed f w Hx Hh Hmiss).
  cbv zeta in Hup. rewrite Hchunks, Hempty in Hup.
  cbn [map combine new_points fold_left upsert_point length] in Hup.
  subst w1. rewrite Hup. cbn [fst snd points map payload].
  repeat split.
  match goal with
  | |- fst (ask question ?W) = _ =>
      assert (Hne : points W <> []) by (cbn [points]; discriminate);
      rewrite (@ask_with_hits E question W Hne)
  end.
  reflexivity.
Qed.

End EndpointExtras.

Lemma txt_hash_is_digest_of_file_witness :
  endswith (filename report) (py ".txt") = true /\
  @extract_text stub report = Ok (py "Hello world.") /\
  compute_hash (py "Hello world.") = Ok (py "764569e58f53ea8b6404f6fa7fc0247f").
Proof.
  split; [reflexivity|]. split; [reflexivity|].
  rewrite (@txt_hash_is_digest_of_file stub report (py "Hello world."));
    [vm_compute|..]; reflexivity.
Defined.

Lemma extract_text_pdf_pages_witness :
  @extract_text stub_online
    {| filename := py "paper.pdf"; content_type := py "application/pdf";
       file := [] |}
  = Ok (py "Page one" ++ [NEWLINE] ++ py "Page two" ++ [NEWLINE]).
Proof.
  destruct (@extract_text_pdf_pages stub_online (py "paper")
              (py "application/pdf") []) as [Hpages _].
  exact (Hpages [py "Page one"; py "Page two"] eq_refl).
Defined.

Lemma upload_adds_one_point_per_chunk_witness :
  fst (@upload_file stub report empty_world)
  = Ok [(py "message", py "File processed and 1 chunks stored.")] /\
  length (points (snd (@upload_file stub report empty_world))) = 1%nat.
Proof.
  destruct (@upload_adds_one_point_per_chunk stub report empty_world
              (py "Hello world.") (py "764569e58f53ea8b6404f6fa7fc0247f"))
    as (Hmsg & Hperm & _).
  - reflexivity.
  - vm_compute. reflexivity.
  - reflexivity.
  - vm_compute. constructor; [intros []|constructor].
  - intros p _ [].
  - split; [rewrite Hmsg; vm_compute; reflexivity|].
    rewrite (Permutation_length Hperm). vm_compute. reflexivity.
Defined.

Lemma upload_skip_touches_nothing_witness :
  has_hash (py "764569e58f53ea8b6404f6fa7fc0247f")
           (firstn SCROLL_DEFAULT_LIMIT (points (@one_document_world stub)))
  = true /\
  fst (@upload_file stub report_copy one_document_world)
  = Ok [(py "message", py "File already processed")] /\
  points (snd (@upload_file stub report_copy one_document_world))
  = points (@one_document_world stub).
Proof.
  assert (Hfound : has_hash (py "764569e58f53ea8b6404f6fa7fc0247f")
             (firstn SCROLL_DEFAULT_LIMIT (points (@one_document_world stub)))
           = true) by (vm_compute; reflexivity).
  split; [exact Hfound|].
  destruct (@upload_skip_touches_nothing stub report_copy one_document_world
              (py "Hello world.") (py "764569e58f53ea8b6404f6fa7fc0247f"))
    as (Hmsg & Hpts & _).
  - reflexivity.
  - vm_compute. reflexivity.
  - exact Hfound.
  - split; assumption.
Defined.

Lemma ask_relays_first_choice_witness :
  points (@one_document_world stub_online) <> [] /\
  fst (@ask stub_online (py "Capital of France?") one_document_world)
  = Ok [(py "answer", py "Paris."); (py "context", py "Hello world..")].
Proof.
  assert (Hw : points (@one_document_world stub_online) <> [])
    by (vm_compute; discriminate).
  split; [exact Hw|].
  rewrite (@ask_relays_first_choice stub_online (py "Capital of France?")
             one_document_world
             {| status_code := 200; text := REPLY_BODY |}
             [(py "choices",
               Json.JArray
                 [Json.JObject
                    [(py "message",
                      Json.JObject
                        [(py "content", Json.JString (py " Paris. "))])]])]
             [(py "message",
               Json.JObject [(py "content", Json.JString (py " Paris. "))])]
             [(py "content", Json.JString (py " Paris. "))]
             [] (py " Paris. ") Hw eq_refl eq_refl eq_refl eq_refl eq_refl).
  vm_compute. reflexivity.
Defined.

Lemma upload_then_ask_uses_the_document_witness :
  endswith (filename report) (py ".txt") = true /\
  Utf8.decode (file report) = Some (py "Hello world.") /\
  (len (py "Hello world.") < DEFAULT_MAX_LEN)%Z /\
  fst (@ask stub_online (py "Capital of France?")
         (snd (upload_file report empty_world)))
  = Ok [(py "answer", py "Paris."); (py "context", py "Hello world..")].
Proof.
  split; [reflexivity|]. split; [reflexivity|]. split; [reflexivity|].
  destruct (@upload_then_ask_uses_the_document stub_online report empty_world
              (py "Hello world.") (py "Capital of France?")
              eq_refl eq_refl eq_refl eq_refl) as (_ & _ & Hask).
  rewrite Hask. vm_compute. reflexivity.
Defined.

(* ================================================================== *)
(** * Properties of the start-up *)
(* ================================================================== *)

Lemma str_eqb_true_eq (s t : str) : str_eqb s t = true -> s = t.
Proof.
  revert t. induction s as [|c r IH]; intros [|d t']; simpl;
    try discriminate; [reflexivity|].
  intros H. apply andb_true_iff in H. destruct H as [Hc Hr].
  apply N.eqb_eq in Hc. rewrite (IH _ Hr), Hc. reflexivity.
Qed.

Section StartupFacts.

Import Startup.

Variable P : Type.

Lemma contains_app (a b : list str) (x : str) :
  contains (a ++ b) x = contains a x || contains b x.
Proof. unfold contains. apply existsb_app. Qed.

Lemma contains_name (server : list (Collection P)) (c : Collection P) :
  In c server -> contains (map name server) (name c) = true.
Proof.
  intros Hin. unfold contains. apply existsb_exists.
  exists (name c). split; [apply in_map; exact Hin|apply str_eqb_refl].
Qed.

(** X15: start-up creates the collection [rag_documents] (768
    dimensions, cosine distance, empty) only when no collection has that
    name; the collections already there are kept as they are, also a
    [rag_documents] with other vector parameters; and running the
    start-up again changes nothing and reports that the collection
    exists. *)
Theorem ensure_collection_idempotent (server : list (Collection P)) :
  let after := fst (ensure_collection server) in
  (exists c, In c after /\ name c = COLLECTION_NAME) /\
  (exists added,
      after = server ++ added /\
      (added = [] \/
       added = [{| name := COLLECTION_NAME; size := 768; distance := COSINE;
                   stored := [] |}])) /\
  (forall c, In c server -> name c = COLLECTION_NAME -> after = server) /\
  ensure_collection after
  = (after, py "Collection `rag_documents` already exists").
Proof.
  unfold ensure_collection.
  destruct (contains (map name server) COLLECTION_NAME) eqn:Hc; simpl.
  - repeat split.
    + unfold contains in Hc. apply existsb_exists in Hc.
      destruct Hc as (n & Hin & Heq). apply in_map_iff in Hin.
      destruct Hin as (c & Hn & Hin). exists c. split; [exact Hin|].
      rewrite Hn. apply str_eqb_true_eq. exact Heq.
    + exists []. rewrite app_nil_r. split; [reflexivity|left; reflexivity].
    + rewrite Hc. reflexivity.
  - repeat split.
    + eexists. split; [apply in_or_app; right; left; reflexivity|reflexivity].
    + eexists. split; [reflexivity|right; reflexivity].
    + intros c Hin Hn. apply contains_name in Hin.
      rewrite Hn in Hin. congruence.
    + rewrite map_app, contains_app. simpl map.
      replace (contains [COLLECTION_NAME] COLLECTION_NAME) with true
        by reflexivity.
      rewrite orb_true_r. reflexivity.
Qed.

End StartupFacts.

(* ================================================================== *)
(** * Properties of the interactive client *)
(* ================================================================== *)

Section ClientFacts.

Import Client.

Lemma api_calls_app (a b : list Shown) :
  api_calls (a ++ b) = api_calls a ++ api_calls b.
Proof. apply filter_app. Qed.

Lemma api_calls_entries (l : list (nat * QA)) :
  api_calls (map history_entry l) = [].
Proof.
  induction l as [|[idx [[q a] ctx]] r IH]; simpl; [reflexivity|exact IH].
Qed.

Lemma api_calls_history (s : Session) : api_calls (render_history s) = [].
Proof.
  unfold render_history. destruct (qa_pairs s); [reflexivity|].
  simpl. apply api_calls_entries.
Qed.

Lemma handle_upload_idle (wd : Widgets) (reply : Outcome) (s : Session) :
  upload_idle wd s = true -> handle_upload wd reply s = (s, []).
Proof.
  unfold upload_idle, handle_upload.
  destruct (uploaded_file wd) as [f|]; [|reflexivity].
  intros ->. reflexivity.
Qed.

Lemma handle_upload_refused (wd : Widgets) (reply : Outcome) (s : Session)
  (f : UploadFile) :
  uploaded_file wd = Some f ->
  str_eqb (filename f) (last_uploaded s) = false ->
  accepted reply = None ->
  exists msg, handle_upload wd reply s = (s, [PostUpload f; Error msg]).
Proof.
  intros Hf Hname Hrefused. unfold handle_upload. rewrite Hf, Hname. simpl.
  destruct reply as [r|e]; [|eexists; reflexivity].
  unfold accepted in Hrefused.
  destruct (ok r); [|eexists; reflexivity].
  destruct (json r); [discriminate|eexists; reflexivity].
Qed.

Lemma handle_upload_accepted (wd : Widgets) (reply : Outcome) (s : Session)
  (f : UploadFile) (d : dict) :
  uploaded_file wd = Some f ->
  str_eqb (filename f) (last_uploaded s) = false ->
  accepted reply = Some d ->
  handle_upload wd reply s =
    ({| uploaded := true; qa_pairs := []; last_uploaded := filename f;
        last_answer := None |},
     [PostUpload f;
      Success (CHECK_MARK ++ py " "
               ++ dict_get_default d (py "message")
                                   (py "File uploaded successfully."))]).
Proof.
  intros Hf Hname Hacc. unfold handle_upload. rewrite Hf, Hname. simpl.
  destruct reply as [r|e]; [|discriminate].
  unfold accepted in Hacc.
  destruct (ok r); [|discriminate].
  destruct (json r); [|discriminate].
  injection Hacc as ->. reflexivity.
Qed.

Lemma enumerate_length {A : Type} (l : list A) (k : nat) :
  length (enumerate l k) = length l.
Proof.
  revert k. induction l as [|x r IH]; intros k; simpl; [reflexivity|].
  rewrite IH. reflexivity.
Qed.

Lemma run_idle (wd : Widgets) (env : Replies) (s : Session) :
  reset_clicked wd = false ->
  upload_idle wd s = true ->
  ask_clicked wd && truthy (strip (question wd)) = false ->
  run wd env s = (s, render_history s).
Proof.
  intros Hreset Hidle Hask. unfold run, handle_reset. rewrite Hreset.
  rewrite (handle_upload_idle wd _ s Hidle).
  unfold handle_ask. rewrite Hask. reflexivity.
Qed.

(** X16: a run in which the reset button is not pressed, no new file
    is selected and no non-blank question is asked (the question box is
    empty or blank, or the button is not pressed) calls no endpoint,
    leaves the session as it is and only shows the history again,
    whatever the API would have answered. *)
Theorem client_idle_run_changes_nothing
  (wd : Widgets) (env : Replies) (s : Session) :
  reset_clicked wd = false ->
  upload_idle wd s = true ->
  ask_clicked wd && truthy (strip (question wd)) = false ->
  fst (run wd env s) = s /\
  api_calls (snd (run wd env s)) = [] /\
  snd (run wd env s) = render_history s.
Proof.
  intros Hreset Hidle Hask.
  rewrite (run_idle wd env s Hreset Hidle Hask). cbn [fst snd].
  split; [reflexivity|]. split; [apply api_calls_history|reflexivity].
Qed.

Lemma client_idle_run_changes_nothing_witness :
  let wd := {| reset_clicked := false;
               uploaded_file := Some report;
               question := py "   ";
               ask_clicked := true |} in
  let s := {| uploaded := true; qa_pairs := [];
              last_uploaded := py "report.txt"; last_answer := None |} in
  fst (run wd {| upload_reply := Failed []; ask_reply := Failed [] |} s) = s.
Proof.
  intros wd s.
  destruct (@client_idle_run_changes_nothing wd
              {| upload_reply := Failed []; ask_reply := Failed [] |} s
              eq_refl eq_refl eq_refl) as [Hs _].
  exact Hs.
Defined.

(** X17: an upload the API does not accept (transport failure, error
    status, or a body that is not a JSON object) is posted, shown as an
    error and leaves the session untouched, so the same file is posted
    again on the next run. *)
Theorem client_refused_upload_is_retried
  (wd : Widgets) (env env' : Replies) (s : Session) (f : UploadFile) :
  reset_clicked wd = false ->
  uploaded_file wd = Some f ->
  str_eqb (filename f) (last_uploaded s) = false ->
  ask_clicked wd && truthy (strip (question wd)) = false ->
  accepted (upload_reply env) = None ->
  fst (run wd env s) = s /\
  api_calls (snd (run wd env s)) = [PostUpload f] /\
  (exists msg, In (Error msg) (snd (run wd env s))) /\
  In (PostUpload f) (snd (run wd env' (fst (run wd env s)))).
Proof.
  intros Hreset Hf Hname Hask Hrefused.
  destruct (handle_upload_refused wd (upload_reply env) s Hf Hname Hrefused)
    as [msg Hup].
  assert (Hrun : run wd env s
                 = (s, [PostUpload f; Error msg] ++ render_history s)).
  { unfold run, handle_reset. rewrite Hreset, Hup.
    unfold handle_ask. rewrite Hask. reflexivity. }
  rewrite Hrun. cbn [fst snd].
  split; [reflexivity|].
  split; [rewrite api_calls_app, api_calls_history; reflexivity|].
  split; [exists msg; right; left; reflexivity|].
  unfold run, handle_reset. rewrite Hreset.
  unfold handle_upload. rewrite Hf, Hname. simpl negb. cbv iota.
  destruct (upload_reply env') as [r|e]; [destruct (ok r); [destruct (json r)|]|];
    destruct (handle_ask wd _ _); left; reflexivity.
Qed.

Lemma client_refused_upload_is_retried_witness :
  let wd := {| reset_clicked := false; uploaded_file := Some report;
               question := []; ask_clicked := false |} in
  let env := {| upload_reply :=
                  Answered {| ok := false; json := JsonError [];
                              body := py "Only PDF or TXT supported" |};
                ask_reply := Failed [] |} in
  run wd env fresh_session =
    (fresh_session,
     [PostUpload report;
      Error (CROSS_MARK ++ py " Upload failed: Only PDF or TXT supported")]).
Proof.
  intros wd env.
  destruct (@client_refused_upload_is_retried wd env env fresh_session report)
    as (Hs & _); try reflexivity.
Defined.

(** X18: a newly selected file the API accepts is posted once: the
    session records its name, the history is emptied, the server's
    message is shown (or a default one when the answer has no message),
    and the next run with the same widgets posts nothing. *)
Theorem client_accepted_upload_is_posted_once
  (wd : Widgets) (env env' : Replies) (s : Session) (f : UploadFile)
  (d : dict) :
  reset_clicked wd = false ->
  uploaded_file wd = Some f ->
  str_eqb (filename f) (last_uploaded s) = false ->
  ask_clicked wd && truthy (strip (question wd)) = false ->
  accepted (upload_reply env) = Some d ->
  run wd env s =
    ({| uploaded := true; qa_pairs := []; last_uploaded := filename f;
        last_answer := None |},
     [PostUpload f;
      Success (CHECK_MARK ++ py " "
               ++ dict_get_default d (py "message")
                                   (py "File uploaded successfully."))]) /\
  api_calls (snd (run wd env' (fst (run wd env s)))) = [].
Proof.
  intros Hreset Hf Hname Hask Hacc.
  assert (Hrun : run wd env s =
    ({| uploaded := true; qa_pairs := []; last_uploaded := filename f;
        last_answer := None |},
     [PostUpload f;
      Success (CHECK_MARK ++ py " "
               ++ dict_get_default d (py "message")
                                   (py "File uploaded successfully."))])).
  { unfold run, handle_reset. rewrite Hreset.
    rewrite (handle_upload_accepted wd _ s Hf Hname Hacc).
    unfold handle_ask. rewrite Hask. reflexivity. }
  split; [exact Hrun|].
  rewrite Hrun. cbn [fst].
  rewrite run_idle; [apply api_calls_history|exact Hreset| |exact Hask].
  unfold upload_idle. rewrite Hf. apply str_eqb_refl.
Qed.

Lemma client_accepted_upload_is_posted_once_witness :
  let wd := {| reset_clicked := false; uploaded_file := Some report;
               question := []; ask_clicked := false |} in
  let env := {| upload_reply :=
                  Answered {| ok := true; json := JsonDict []; body := [] |};
                ask_reply := Failed [] |} in
  run wd env fresh_session =
    ({| uploaded := true; qa_pairs := []; last_uploaded := py "report.txt";
        last_answer := None |},
     [PostUpload report;
      Success (CHECK_MARK ++ py " File uploaded successfully.")]).
Proof.
  intros wd env.
  destruct (@client_accepted_upload_is_posted_once wd env env fresh_session
              report [] eq_refl eq_refl eq_refl eq_refl eq_refl) as [Hrun _].
  exact Hrun.
Defined.

Lemma enumerate_rev_snoc (l : list QA) (e : QA) :
  enumerate (rev (l ++ [e])) 1 = (1%nat, e) :: enumerate (rev l) 2.
Proof. rewrite rev_app_distr. reflexivity. Qed.

(** X19: a non-blank question the API answers is recorded at the end
    of the history with the answer and the context of the response (or
    the defaults when the response lacks them), only the ask endpoint is
    called, and the history is shown newest first: the entry numbered 1
    is the question just asked, followed by one entry per earlier
    question. *)
Theorem client_answer_is_recorded_newest_first
  (wd : Widgets) (env : Replies) (s : Session) (d : dict) :
  let entry := (question wd,
                dict_get_default d (py "answer") (py "No answer received."),
                dict_get_default d (py "context") []) in
  reset_clicked wd = false ->
  upload_idle wd s = true ->
  ask_clicked wd = true ->
  truthy (strip (question wd)) = true ->
  accepted (ask_reply env) = Some d ->
  fst (run wd env s) =
    {| uploaded := uploaded s; qa_pairs := qa_pairs s ++ [entry];
       last_uploaded := last_uploaded s; last_answer := Some entry |} /\
  api_calls (snd (run wd env s)) = [PostAsk (question wd)] /\
  exists older,
    render_history (fst (run wd env s)) =
      Markdown (py "---") :: Header (BOOKS ++ py " Q&A History")
      :: history_entry (1%nat, entry) :: older /\
    length older = length (qa_pairs s).
Proof.
  intros entry Hreset Hidle Hclick Hq Hacc.
  assert (Hrun : exists out,
    run wd env s =
      ({| uploaded := uploaded s; qa_pairs := qa_pairs s ++ [entry];
          last_uploaded := last_uploaded s; last_answer := Some entry |},
       out) /\ api_calls out = [PostAsk (question wd)]).
  { unfold run, handle_reset. rewrite Hreset.
    rewrite (handle_upload_idle wd _ s Hidle).
    unfold handle_ask. rewrite Hclick, Hq. simpl andb. cbv iota.
    destruct (ask_reply env) as [r|e]; [|discriminate].
    unfold accepted in Hacc.
    destruct (ok r); [|discriminate].
    destruct (json r) as [d'|]; [|discriminate].
    injection Hacc as ->. fold entry.
    eexists. split; [reflexivity|].
    simpl app. cbn [api_calls filter].
    change (filter _ (render_history ?x)) with (api_calls (render_history x)).
    rewrite api_calls_history. reflexivity. }
  destruct Hrun as (out & Hrun & Hcalls). rewrite Hrun. cbn [fst snd].
  split; [reflexivity|]. split; [exact Hcalls|].
  unfold render_history. cbn [qa_pairs].
  destruct (qa_pairs s ++ [entry]) as [|x xs] eqn:Hl;
    [destruct (qa_pairs s); discriminate|].
  rewrite <- Hl, enumerate_rev_snoc. cbn [map].
  eexists. split; [reflexivity|].
  rewrite length_map, enumerate_length, length_rev. reflexivity.
Qed.

Lemma client_answer_is_recorded_newest_first_witness :
  let wd := {| reset_clicked := false; uploaded_file := None;
               question := py "Second?"; ask_clicked := true |} in
  let env := {| upload_reply := Failed [];
                ask_reply :=
                  Answered {| ok := true;
                              json := JsonDict [(py "answer", py "Yes.")];
                              body := [] |} |} in
  let s := {| uploaded := true;
              qa_pairs := [(py "First?", py "No.", py "ctx")];
              last_uploaded := py "report.txt";
              last_answer := Some (py "First?", py "No.", py "ctx") |} in
  qa_pairs (fst (run wd env s))
  = [(py "First?", py "No.", py "ctx"); (py "Second?", py "Yes.", [])].
Proof.
  intros wd env s.
  destruct (@client_answer_is_recorded_newest_first wd env s
              [(py "answer", py "Yes.")] eq_refl eq_refl eq_refl eq_refl
              eq_refl) as [Hs _].
  rewrite Hs. reflexivity.
Defined.

(** X20: pressing reset while a file is still selected empties the
    history but posts that file again in the same run; when the API
    accepts it the session is marked uploaded under that name again,
    otherwise the session is the fresh one. *)
Theorem client_reset_posts_selected_file_again
  (wd : Widgets) (env : Replies) (s : Session) (f : UploadFile) :
  reset_clicked wd = true ->
  uploaded_file wd = Some f ->
  filename f <> [] ->
  ask_clicked wd && truthy (strip (question wd)) = false ->
  api_calls (snd (run wd env s)) = [PostUpload f] /\
  qa_pairs (fst (run wd env s)) = [] /\
  match accepted (upload_reply env) with
  | Some _ =>
      uploaded (fst (run wd env s)) = true /\
      last_uploaded (fst (run wd env s)) = filename f
  | None => fst (run wd env s) = fresh_session
  end.
Proof.
  intros Hreset Hf Hname Hask.
  assert (Hdiff : str_eqb (filename f) (last_uploaded fresh_session) = false)
    by (destruct (filename f); [congruence|reflexivity]).
  unfold run, handle_reset. rewrite Hreset.
  fold fresh_session.
  destruct (accepted (upload_reply env)) as [d|] eqn:Hacc.
  - rewrite (handle_upload_accepted wd _ fresh_session Hf Hdiff Hacc).
    unfold handle_ask. rewrite Hask. cbn [fst snd].
    repeat split.
  - destruct (handle_upload_refused wd (upload_reply env) fresh_session
                Hf Hdiff Hacc) as [msg Hup].
    rewrite Hup. unfold handle_ask. rewrite Hask. cbn [fst snd].
    repeat split.
Qed.

Lemma client_reset_posts_selected_file_again_witness :
  let wd := {| reset_clicked := true; uploaded_file := Some report;
               question := []; ask_clicked := false |} in
  let env := {| upload_reply :=
                  Answered {| ok := true;
                              json := JsonDict [(py "message",
                                                 py "File already processed")];
                              body := [] |};
                ask_reply := Failed [] |} in
  let s := {| uploaded := true;
              qa_pairs := [(py "First?", py "No.", py "ctx")];
              last_uploaded := py "report.txt";
              last_answer := Some (py "First?", py "No.", py "ctx") |} in
  filename report <> [] /\
  api_calls (snd (run wd env s)) = [PostUpload report].
Proof.
  intros wd env s.
  assert (Hname : filename report <> []) by discriminate.
  split; [exact Hname|].
  destruct (@client_reset_posts_selected_file_again wd env s report
              eq_refl eq_refl Hname eq_refl) as [Hcalls _].
  exact Hcalls.
Defined.

End ClientFacts.

Lemma duplicate_detected_within_first_page_witness :
  (length (points (snd (@upload_file stub report empty_world)))
   <= SCROLL_DEFAULT_LIMIT)%nat /\
  @upload_file stub report_copy (snd (upload_file report empty_world)) =
    (Ok [(py "message", py "File already processed")],
     log CallScroll (snd (upload_file report empty_world))).
Proof.
  assert (Hfit : (length (points (snd (@upload_file stub report empty_world)))
                  <= SCROLL_DEFAULT_LIMIT)%nat)
    by (vm_compute; repeat constructor).
  split; [exact Hfit|].
  apply (@duplicate_detected_within_first_page stub report report_copy
           empty_world (py "Hello world.")
           (py "764569e58f53ea8b6404f6fa7fc0247f")).
  - reflexivity.
  - reflexivity.
  - vm_compute. reflexivity.
  - exact Hfit.
Defined.
